(** * ntfy-agent: the ML process monitor daemon and its viewer

    A shallow embedding of [src/ml-monitor-daemon.py] (class
    [MLMonitorDaemon]) and of the state-loading half of
    [src/ml-monitor-ui.py] (class [MLMonitorUI]), followed by the
    properties of the process-lifecycle tracker.

    Conventions of the embedding:
    - Python [int] is [Z]; Python [str] is [string]; a Python [dict] keyed
      by pid is a [gmap Z _]; the state file system is a [gmap string file].
    - Everything the daemon asks the operating system (the process table,
      the clock, [nvidia-smi], the HTTP transport, the outcome of file
      operations) is read from an explicit environment record, one per
      iteration of the polling loop.
    - Code that can raise runs in a small state-and-exception monad; a
      [try]/[except] block is the combinator [try_except].
    - [json.dump] and [json.load] belong to the library: a file holds the
      document that [json.load] decodes from it, or text that it rejects.
    - A Python [set] has no specified order; where the daemon iterates
      over [set(keys)], the order of [map_to_list] stands for it. *)

From Stdlib Require Import ZArith Ascii String List Lia Bool.
From stdpp Require Import base option list gmap strings fin_maps.

Local Open Scope Z_scope.
Set Warnings "-register-all".

(** ** Python strings *)

Module PyStr.

(** [str.isspace] on the ASCII range: TAB..CR, FS..US and the blank. *)
Definition is_space (c : ascii) : bool :=
  let n := Z.of_nat (nat_of_ascii c) in
  ((9 <=? n) && (n <=? 13)) || ((28 <=? n) && (n <=? 32)).

Fixpoint lstrip (s : string) : string :=
  match s with
  | EmptyString => EmptyString
  | String c s' => if is_space c then lstrip s' else s
  end.

Definition rstrip (s : string) : string :=
  String.rev (lstrip (String.rev s)).

(** No character of [s] is whitespace. *)
Fixpoint no_space (s : string) : bool :=
  match s with
  | EmptyString => true
  | String c s' => negb (is_space c) && no_space s'
  end.

(** [s.strip()] *)
Definition strip (s : string) : string := rstrip (lstrip s).

(** [s.split(sep)] for a one-character separator: never the empty list. *)
Fixpoint split (sep : ascii) (s : string) : list string :=
  match s with
  | EmptyString => [EmptyString]
  | String c s' =>
      if Ascii.eqb c sep then EmptyString :: split sep s'
      else match split sep s' with
           | [] => [String c EmptyString]
           | w :: ws => String c w :: ws
           end
  end.

(** [sep.join(l)] *)
Fixpoint join (sep : string) (l : list string) : string :=
  match l with
  | [] => EmptyString
  | [x] => x
  | x :: rest => x +:+ sep +:+ join sep rest
  end.

Definition digit_char (d : Z) : ascii :=
  ascii_of_nat (48 + Z.to_nat d).

Definition digit_val (c : ascii) : option Z :=
  let n := Z.of_nat (nat_of_ascii c) in
  if (48 <=? n) && (n <=? 57) then Some (n - 48) else None.

(** The [w] low decimal digits of [n], most significant first, in front
    of [acc]: the [%0wd] of a number below [10^w]. *)
Fixpoint zpad (w : nat) (n : Z) (acc : string) : string :=
  match w with
  | O => acc
  | S w' => zpad w' (n / 10) (String (digit_char (n mod 10)) acc)
  end.

(** Number of decimal digits of a non-negative [n] (at least one). *)
Fixpoint ndigits_go (fuel : nat) (n : Z) : nat :=
  match fuel with
  | O => 1%nat
  | S f => if n <? 10 then 1%nat else S (ndigits_go f (n / 10))
  end.

Definition ndigits (n : Z) : nat := ndigits_go (Z.to_nat (Z.log2 n)) n.

(** [str(n)] for an [int]. *)
Definition str_of_Z (n : Z) : string :=
  if n <? 0 then String "-"%char (zpad (ndigits (- n)) (- n) EmptyString)
  else zpad (ndigits n) n EmptyString.

(** Reads exactly [w] decimal digits from the front of [s]. *)
Fixpoint take_digits (w : nat) (s : string) (acc : Z) : option (Z * string) :=
  match w with
  | O => Some (acc, s)
  | S w' =>
      match s with
      | EmptyString => None
      | String c s' =>
          match digit_val c with
          | Some d => take_digits w' s' (10 * acc + d)
          | None => None
          end
      end
  end.

(** The digit part of an [int] literal: digits, with single underscores
    allowed between two digits. [prev] tells whether the previous
    character was a digit. *)
Fixpoint int_digits (s : string) (acc : Z) (prev : bool) : option Z :=
  match s with
  | EmptyString => if prev then Some acc else None
  | String c s' =>
      match digit_val c with
      | Some d => int_digits s' (10 * acc + d) true
      | None =>
          if Ascii.eqb c "_"%char && prev then int_digits s' acc false
          else None
      end
  end.

(** [int(s)] for a [str]: surrounding whitespace is ignored, one sign is
    allowed; [None] stands for [ValueError]. *)
Definition int_of_str (s : string) : option Z :=
  match strip s with
  | EmptyString => None
  | String c ds =>
      if Ascii.eqb c "-"%char then Z.opp <$> int_digits ds 0 false
      else if Ascii.eqb c "+"%char then int_digits ds 0 false
      else int_digits (String c ds) 0 false
  end.

(** [os.path.dirname] of [posixpath]: the part before the last slash,
    without its trailing slashes unless it consists of slashes only. *)
Fixpoint rfind_slash (s : string) : option nat :=
  match s with
  | EmptyString => None
  | String c s' =>
      match rfind_slash s' with
      | Some i => Some (S i)
      | None => if Ascii.eqb c "/"%char then Some O else None
      end
  end.

Fixpoint all_slashes (s : string) : bool :=
  match s with
  | EmptyString => true
  | String c s' => Ascii.eqb c "/"%char && all_slashes s'
  end.

Fixpoint rstrip_slashes_rev (r : string) : string :=
  match r with
  | String c r' => if Ascii.eqb c "/"%char then rstrip_slashes_rev r' else r
  | EmptyString => EmptyString
  end.

Definition dirname (p : string) : string :=
  match rfind_slash p with
  | None => EmptyString
  | Some i =>
      let head := String.substring 0 (S i) p in
      if all_slashes head then head
      else String.rev (rstrip_slashes_rev (String.rev head))
  end.

End PyStr.

(** ** Exceptions and results *)

(** The exception classes that the two programs can meet; every one of them
    derives from [Exception]. *)
Inductive exn :=
| NoSuchProcess | AccessDenied | ZombieProcess
| KeyError | ValueError | TypeError | AttributeError
| JSONDecodeError | OSError | RequestException | UnicodeEncodeError
| OtherError (what : string).

Inductive result (A : Type) :=
| Ok (a : A)
| Raise (e : exn).
Arguments Ok {A} a.
Arguments Raise {A} e.

#[global] Instance result_ret : MRet result := λ A a, Ok a.
#[global] Instance result_bind : MBind result := λ A B k r,
  match r with
  | Ok a => k a
  | Raise e => Raise e
  end.

(** [try: r except Exception as e: h e], without state. *)
Definition rcatch {A} (r : result A) (h : exn → result A) : result A :=
  match r with
  | Ok a => Ok a
  | Raise e => h e
  end.

(** [None] of a library routine that signals [ValueError]. *)
Definition or_raise {A} (e : exn) (o : option A) : result A :=
  match o with Some a => Ok a | None => Raise e end.

(** ** [datetime] *)

Module DateTime.

(** A naive [datetime.datetime]. *)
Record datetime := mk {
  year : Z; month : Z; day : Z;
  hour : Z; minute : Z; second : Z; microsecond : Z
}.

Definition is_leap (y : Z) : bool :=
  (y mod 4 =? 0) && (negb (y mod 100 =? 0) || (y mod 400 =? 0)).

Definition days_in_month (y m : Z) : Z :=
  if m =? 2 then (if is_leap y then 29 else 28)
  else if (m =? 4) || (m =? 6) || (m =? 9) || (m =? 11) then 30
  else 31.

(** The range checks of the [datetime] constructor. *)
Definition valid (d : datetime) : bool :=
  (1 <=? year d) && (year d <=? 9999) &&
  (1 <=? month d) && (month d <=? 12) &&
  (1 <=? day d) && (day d <=? days_in_month (year d) (month d)) &&
  (0 <=? hour d) && (hour d <? 24) &&
  (0 <=? minute d) && (minute d <? 60) &&
  (0 <=? second d) && (second d <? 60) &&
  (0 <=? microsecond d) && (microsecond d <? 1000000).

Definition make (y m d hh mi ss us : Z) : option datetime :=
  let r := mk y m d hh mi ss us in
  if valid r then Some r else None.

(** [d.isoformat()]: [YYYY-MM-DDTHH:MM:SS], followed by [.ffffff] when
    the microsecond is not zero. *)
Definition isoformat (d : datetime) : string :=
  PyStr.zpad 4 (year d) (String "-"
    (PyStr.zpad 2 (month d) (String "-"
      (PyStr.zpad 2 (day d) (String "T"
        (PyStr.zpad 2 (hour d) (String ":"
          (PyStr.zpad 2 (minute d) (String ":"
            (PyStr.zpad 2 (second d)
              (if microsecond d =? 0 then EmptyString
               else String "." (PyStr.zpad 6 (microsecond d) EmptyString)))))))))))).

Definition expect (c : ascii) (s : string) : option string :=
  match s with
  | String c' s' => if Ascii.eqb c' c then Some s' else None
  | EmptyString => None
  end.

(** The fraction of a second: three or six digits up to the end. *)
Definition parse_fraction (s : string) : option Z :=
  match PyStr.take_digits 6 s 0 with
  | Some (us, EmptyString) => Some us
  | _ =>
      match PyStr.take_digits 3 s 0 with
      | Some (ms, EmptyString) => Some (ms * 1000)
      | _ => None
      end
  end.

(** [HH[:MM[:SS[.fff[fff]]]]] *)
Definition parse_time (s : string) : option (Z * Z * Z * Z) :=
  '(hh, s) ← PyStr.take_digits 2 s 0;
  match s with
  | EmptyString => Some (hh, 0, 0, 0)
  | _ =>
      s ← expect ":" s;
      '(mi, s) ← PyStr.take_digits 2 s 0;
      match s with
      | EmptyString => Some (hh, mi, 0, 0)
      | _ =>
          s ← expect ":" s;
          '(ss, s) ← PyStr.take_digits 2 s 0;
          match s with
          | EmptyString => Some (hh, mi, ss, 0)
          | _ =>
              s ← expect "." s;
              us ← parse_fraction s;
              Some (hh, mi, ss, us)
          end
      end
  end.

(** [datetime.fromisoformat(s)] on the forms without a UTC offset:
    [YYYY-MM-DD], optionally one separator character and a time.
    [None] stands for [ValueError]. *)
Definition fromisoformat (s : string) : option datetime :=
  '(y, s) ← PyStr.take_digits 4 s 0;
  s ← expect "-" s;
  '(m, s) ← PyStr.take_digits 2 s 0;
  s ← expect "-" s;
  '(d, s) ← PyStr.take_digits 2 s 0;
  match s with
  | EmptyString => make y m d 0 0 0 0
  | String _ t =>
      '(hh, mi, ss, us) ← parse_time t;
      make y m d hh mi ss us
  end.

Definition days_before_year (y : Z) : Z :=
  let p := y - 1 in p * 365 + p / 4 - p / 100 + p / 400.

Fixpoint days_before_month_go (y : Z) (m : nat) : Z :=
  match m with
  | O => 0
  | S m' => days_before_month_go y m' + days_in_month y (Z.of_nat m)
  end.

Definition days_before_month (y m : Z) : Z :=
  days_before_month_go y (Z.to_nat (m - 1)).

Definition toordinal (d : datetime) : Z :=
  days_before_year (year d) + days_before_month (year d) (month d) + day d.

Definition to_microseconds (d : datetime) : Z :=
  (((toordinal d * 24 + hour d) * 60 + minute d) * 60 + second d) * 1000000
  + microsecond d.

(** [a - b], a [timedelta], as its total number of microseconds. *)
Definition sub (a b : datetime) : Z := to_microseconds a - to_microseconds b.

End DateTime.

Abbreviation datetime := DateTime.datetime.

(** ** JSON documents *)

(** A decoded JSON document, as [json.load] returns it and [json.dump]
    takes it: [None], [bool], [int], [str], [list], and [dict] with
    string keys in insertion order. *)
Inductive json :=
| JNull
| JBool (b : bool)
| JInt (n : Z)
| JStr (s : string)
| JArr (l : list json)
| JObj (items : list (string * json)).

Fixpoint assoc (k : string) (kv : list (string * json)) : option json :=
  match kv with
  | [] => None
  | (k', v) :: rest => if String.eqb k k' then Some v else assoc k rest
  end.

(** [v[k]] for a string key. *)
Definition getitem (v : json) (k : string) : result json :=
  match v with
  | JObj kv => or_raise KeyError (assoc k kv)
  | _ => Raise TypeError
  end.

(** [v.items()] *)
Definition items_of (v : json) : result (list (string * json)) :=
  match v with
  | JObj kv => Ok kv
  | _ => Raise AttributeError
  end.

(** [datetime.fromisoformat(v)] on a decoded value. *)
Definition fromisoformat_json (v : json) : result datetime :=
  match v with
  | JStr s => or_raise ValueError (DateTime.fromisoformat s)
  | _ => Raise TypeError
  end.

(** ** State and exceptions

    A computation over a mutable state [S] either returns or raises, and
    in both cases leaves a state behind: what was mutated before an
    exception stays mutated. *)

Definition M (S A : Type) : Type := S → result A * S.

#[global] Instance M_ret {S} : MRet (M S) := λ A a s, (Ok a, s).
#[global] Instance M_bind {S} : MBind (M S) := λ A B k m s,
  match m s with
  | (Ok a, s') => k a s'
  | (Raise e, s') => (Raise e, s')
  end.

Definition lift {S A} (r : result A) : M S A := λ s, (r, s).
Definition gets {S A} (f : S → A) : M S A := λ s, (Ok (f s), s).
Definition modify {S} (f : S → S) : M S unit := λ s, (Ok tt, f s).

(** [try: body except Exception as e: handler e] *)
Definition try_except {S A} (body : M S A) (handler : exn → M S A) : M S A :=
  λ s, match body s with
       | (Ok a, s') => (Ok a, s')
       | (Raise e, s') => handler e s'
       end.

(** [try: body finally: final] *)
Definition try_finally {S A} (body : M S A) (final : M S unit) : M S A :=
  λ s, match body s with
       | (r, s') =>
           match final s' with
           | (Ok _, s'') => (r, s'')
           | (Raise e, s'') => (Raise e, s'')
           end
       end.

(** [for x in l: body x] *)
Fixpoint for_each {S A} (l : list A) (body : A → M S unit) : M S unit :=
  match l with
  | [] => mret tt
  | x :: l' => body x ;; for_each l' body
  end.

(** A loop that carries a local variable. *)
Fixpoint for_fold {S A B} (l : list A) (body : B → A → M S B) (b : B) : M S B :=
  match l with
  | [] => mret b
  | x :: l' => b' ← body b x; for_fold l' body b'
  end.

(** ** The data of the daemon *)

(** One value of [tracked_processes]: the dict with the keys [cmdline],
    [start_time], [username], [last_checked] and [gpu_info]. The three
    fields that go to and come from the state file unconverted hold
    decoded JSON values. *)
Record entry := {
  cmdline : json;
  start_time : datetime;
  username : json;
  last_checked : datetime;
  gpu_info : json
}.

(** The state file as a reader finds it. *)
Inductive file :=
| Unreadable                (* [open] raises *)
| Garbage (raw : string)    (* text that [json.load] rejects *)
| Document (v : json).      (* text that [json.load] decodes to [v] *)

(** The file-system calls, in the order they reach the operating system. *)
Inductive fs_op :=
| Makedirs (dir : string)
| OpenTrunc (path : string)
| WriteFile (path : string) (content : file)
| Rename (src dst : string).

(** Pieces of an f-string: the literal text and the interpolated values. *)
Inductive piece :=
| Lit (s : string)
| Val (v : json)
| ValTime (t : datetime)
| ValDelta (microseconds : Z).

Definition fstring := list piece.

(** What [psutil.Process(proc.ppid()).name()] comes to. *)
Inductive parent_lookup :=
| ParentName (name : string)
| ParentGone                (* psutil.NoSuchProcess *)
| ParentDenied.             (* psutil.AccessDenied *)

(** One element of [psutil.process_iter([...])] with its [info] dict;
    [create_time] is given as [datetime.fromtimestamp] converts it. *)
Record proc_info := {
  pi_pid : Z;
  pi_name : option string;
  pi_username : option string;
  pi_cmdline : option (list string);
  pi_create_time : datetime;
  pi_parent : parent_lookup
}.

(** [subprocess.run(..., capture_output=True, text=True)] *)
Record completed := { returncode : Z; stdout : string }.

(** [requests.post(...)] *)
Record response := { status_code : Z; text : string }.

(** How the write of the state file goes. *)
Inductive write_outcome :=
| WriteCompletes
| OpenRaises (e : exn)
| DumpRaises (e : exn) (partial : string).

Record fs_env := {
  makedirs_result : result unit;
  write_result : write_outcome
}.

(** Everything one iteration of the polling loop reads from outside. *)
Record cycle_env := {
  snapshot : list proc_info;               (* psutil.process_iter *)
  getpid : Z;                              (* os.getpid() *)
  now_find : Z → datetime;                 (* datetime.now(), line 69 *)
  smi_find : Z → result completed;         (* nvidia-smi, line 70 *)
  process_exists : Z → bool;               (* psutil.Process(pid), line 112 *)
  now_check : Z → datetime;                (* datetime.now(), lines 114, 120 *)
  smi_check : Z → result completed;        (* nvidia-smi, line 116 *)
  http_post : fstring → fstring → result response;
  cycle_fs : fs_env
}.

(** The daemon object together with the world it acts on: the files,
    the calls of [send_notification] so far, the file-system calls so far. *)
Record world := {
  tracked_processes : gmap Z entry;
  disk : gmap string file;
  outbox : list (fstring * fstring);
  fs_log : list fs_op
}.

Definition set_tracked (f : gmap Z entry → gmap Z entry) (w : world) : world :=
  {| tracked_processes := f (tracked_processes w); disk := disk w;
     outbox := outbox w; fs_log := fs_log w |}.

Definition fs_apply (op : fs_op) (d : gmap string file) : gmap string file :=
  match op with
  | Makedirs _ => d
  | OpenTrunc path => <[path := Garbage EmptyString]> d
  | WriteFile path content => <[path := content]> d
  | Rename src dst =>
      match d !! src with
      | Some f => <[dst := f]> (delete src d)
      | None => d
      end
  end.

(** Performs one file-system call: the disk changes and the call is logged. *)
Definition fs_do (op : fs_op) (w : world) : world :=
  {| tracked_processes := tracked_processes w; disk := fs_apply op (disk w);
     outbox := outbox w; fs_log := fs_log w ++ [op] |}.

Definition record_call (title message : fstring) (w : world) : world :=
  {| tracked_processes := tracked_processes w; disk := disk w;
     outbox := outbox w ++ [(title, message)]; fs_log := fs_log w |}.

(** [__init__]: nothing tracked yet. *)
Definition init (d : gmap string file) : world :=
  {| tracked_processes := ∅; disk := d; outbox := []; fs_log := [] |}.

(** ** [MLMonitorDaemon] *)

Definition is_python_name (n : string) : bool :=
  String.eqb n "python" || String.eqb n "python3".

Definition is_python (name : option string) : bool :=
  match name with
  | Some n => is_python_name n
  | None => false
  end.

(** The loop of lines 93-98 over the lines of the [nvidia-smi] output. *)
Fixpoint find_gpu_line (pid : Z) (lines : list string) : json :=
  match lines with
  | [] => JNull
  | line :: rest =>
      if String.eqb (PyStr.strip line) EmptyString then find_gpu_line pid rest
      else
        match PyStr.split ","%char (PyStr.strip line) with
        | p0 :: p1 :: _ =>
            if String.eqb (PyStr.strip p0) (PyStr.str_of_Z pid)
            then JObj [("used_memory", JStr (PyStr.strip p1))]
            else find_gpu_line pid rest
        | _ => find_gpu_line pid rest
        end
  end.

(** [get_gpu_info_for_process] (lines 80-103). *)
Definition get_gpu_info_for_process (smi : result completed) (pid : Z) : result json :=
  rcatch
    (result ← smi;
     if negb (returncode result =? 0) then mret JNull
     else mret (find_gpu_line pid
                  (PyStr.split "010"%char (PyStr.strip (stdout result)))))
    (λ _, mret JNull).

(** Line 51. *)
Definition cmdline_of (c : option (list string)) : string :=
  match c with
  | Some (a :: l) => PyStr.join " " (a :: l)
  | _ => "Unknown"
  end.

Definition json_of_opt (o : option string) : json :=
  match o with
  | Some s => JStr s
  | None => JNull
  end.

Definition parent_name (p : parent_lookup) : result string :=
  match p with
  | ParentName n => Ok n
  | ParentGone => Raise NoSuchProcess
  | ParentDenied => Raise AccessDenied
  end.

(** [except (psutil.NoSuchProcess, psutil.AccessDenied, psutil.ZombieProcess)];
    [ZombieProcess] derives from [NoSuchProcess]. *)
Definition is_psutil_error (e : exn) : bool :=
  match e with
  | NoSuchProcess | AccessDenied | ZombieProcess => true
  | _ => false
  end.

(** [except psutil.NoSuchProcess] *)
Definition is_no_such_process (e : exn) : bool :=
  match e with
  | NoSuchProcess | ZombieProcess => true
  | _ => false
  end.

(** The body of the loop of [find_python_processes] (lines 36-76);
    [skip] stands for [continue]. *)
Definition find_body (env : cycle_env) (new_processes : gmap Z entry)
    (proc : proc_info) : M world (gmap Z entry) :=
  let skip : M world (gmap Z entry) := mret new_processes in
  try_except
    (if is_python (pi_name proc) then
       let pid := pi_pid proc in
       tracked ← gets tracked_processes;
       match tracked !! pid with
       | Some info => mret (<[pid := info]> new_processes)
       | None =>
           if pid =? getpid env then skip
           else
             let cmdline := cmdline_of (pi_cmdline proc) in
             is_child ← try_except
               (parent_name ← lift (parent_name (pi_parent proc));
                mret (is_python_name parent_name))
               (λ e, if is_psutil_error e then mret false else lift (Raise e));
             if is_child : bool then skip
             else
               gpu ← lift (get_gpu_info_for_process (smi_find env pid) pid);
               mret (<[pid := {| cmdline := JStr cmdline;
                                 start_time := pi_create_time proc;
                                 username := json_of_opt (pi_username proc);
                                 last_checked := now_find env pid;
                                 gpu_info := gpu |}]> new_processes)
       end
     else skip)
    (λ e, if is_psutil_error e then skip else lift (Raise e)).

(** [find_python_processes] (lines 31-78). *)
Definition find_python_processes (env : cycle_env) : M world (gmap Z entry) :=
  for_fold (snapshot env) (find_body env) ∅.

(** [send_notification] (lines 142-159): the call is recorded, then the
    request is made inside the [try]. *)
Definition send_notification (env : cycle_env) (title message : fstring) : M world bool :=
  modify (record_call title message);;
  try_except
    (response ← lift (http_post env title message);
     mret (status_code response =? 200))
    (λ _, mret false).

(** [self.tracked_processes[pid]] *)
Definition tracked_at (pid : Z) : M world entry :=
  tracked ← gets tracked_processes;
  lift (or_raise KeyError (tracked !! pid)).

(** [psutil.Process(pid)] *)
Definition psutil_Process (env : cycle_env) (pid : Z) : result unit :=
  if process_exists env pid then Ok tt else Raise NoSuchProcess.

(** The body of the loop of [check_process_status] (lines 111-136). *)
Definition check_body (env : cycle_env) (terminated_pids : list Z) (pid : Z)
    : M world (list Z) :=
  try_except
    (lift (psutil_Process env pid);;
     info ← tracked_at pid;
     modify (set_tracked <[pid := {| cmdline := cmdline info;
                                     start_time := start_time info;
                                     username := username info;
                                     last_checked := now_check env pid;
                                     gpu_info := gpu_info info |}]>);;
     gpu ← lift (get_gpu_info_for_process (smi_check env pid) pid);
     info ← tracked_at pid;
     modify (set_tracked <[pid := {| cmdline := cmdline info;
                                     start_time := start_time info;
                                     username := username info;
                                     last_checked := last_checked info;
                                     gpu_info := gpu |}]>);;
     mret terminated_pids)
    (λ e,
       if is_no_such_process e then
         process_info ← tracked_at pid;
         let end_time := now_check env pid in
         let duration := DateTime.sub end_time (start_time process_info) in
         let title := [Lit "ML Process Ended - "; Val (username process_info)] in
         let message :=
           [Lit "Command: "; Val (cmdline process_info);
            Lit "\nDuration: "; ValDelta duration;
            Lit "\nStart time: "; ValTime (start_time process_info);
            Lit "\nEnd time: "; ValTime end_time] in
         send_notification env title message;;
         mret (terminated_pids ++ [pid])
       else lift (Raise e)).

(** [check_process_status] (lines 105-140). *)
Definition check_process_status (env : cycle_env) : M world unit :=
  current_pids ← gets (λ w, (map_to_list (tracked_processes w)).*1);
  terminated_pids ← for_fold current_pids (check_body env) [];
  for_each terminated_pids (λ pid, modify (set_tracked (delete pid))).

(** The value stored under [str(pid)] by [save_state] (lines 168-174). *)
Definition serialize_entry (info : entry) : json :=
  JObj [("cmdline", cmdline info);
        ("start_time", JStr (DateTime.isoformat (start_time info)));
        ("username", username info);
        ("last_checked", JStr (DateTime.isoformat (last_checked info)));
        ("gpu_info", gpu_info info)].

(** [serializable_state] (lines 166-174). *)
Definition serializable_state (tracked : gmap Z entry) : json :=
  JObj ((λ '(pid, info), (PyStr.str_of_Z pid, serialize_entry info))
          <$> map_to_list tracked).

(** [os.makedirs(dir, exist_ok=True)] *)
Definition os_makedirs (fsenv : fs_env) (dir : string) : M world unit :=
  λ w, (makedirs_result fsenv, fs_do (Makedirs dir) w).

(** [open(path, 'w')]: truncates the file as soon as it succeeds. *)
Definition open_write (fsenv : fs_env) (path : string) : M world unit :=
  λ w, match write_result fsenv with
       | OpenRaises e => (Raise e, w)
       | _ => (Ok tt, fs_do (OpenTrunc path) w)
       end.

(** [json.dump(doc, f)] and the close of [f] at the end of the [with]. *)
Definition json_dump (fsenv : fs_env) (doc : json) (path : string) : M world unit :=
  λ w, match write_result fsenv with
       | DumpRaises e partial =>
           (Raise e, fs_do (WriteFile path (Garbage partial)) w)
       | _ => (Ok tt, fs_do (WriteFile path (Document doc)) w)
       end.

(** [save_state] (lines 161-181). *)
Definition save_state (fsenv : fs_env) (state_file : string) : M world unit :=
  os_makedirs fsenv (PyStr.dirname state_file);;
  doc ← gets (λ w, serializable_state (tracked_processes w));
  try_except
    (open_write fsenv state_file;;
     json_dump fsenv doc state_file)
    (λ _, mret tt).

(** [open(path, 'r')] followed by [json.load]. *)
Definition read_json (f : option file) : result json :=
  match f with
  | None => Raise OSError
  | Some Unreadable => Raise OSError
  | Some (Garbage _) => Raise JSONDecodeError
  | Some (Document v) => Ok v
  end.

(** The dict display of lines 196-202 (and of lines 33-39 of the viewer),
    evaluated key by key. *)
Definition entry_of_json (info : json) : result entry :=
  c ← getitem info "cmdline";
  st ← getitem info "start_time" ≫= fromisoformat_json;
  u ← getitem info "username";
  lc ← getitem info "last_checked" ≫= fromisoformat_json;
  g ← getitem info "gpu_info";
  mret {| cmdline := c; start_time := st; username := u;
          last_checked := lc; gpu_info := g |}.

(** [int(pid_str)] *)
Definition int_of (pid_str : string) : result Z :=
  or_raise ValueError (PyStr.int_of_str pid_str).

(** [os.path.exists(path)] *)
Definition path_exists (d : gmap string file) (path : string) : bool :=
  match d !! path with
  | Some _ => true
  | None => false
  end.

(** [load_state] (lines 183-206): entries are stored one by one, so what
    was stored before an exception stays. *)
Definition load_state (state_file : string) : M world unit :=
  d ← gets disk;
  if negb (path_exists d state_file) then mret tt
  else
    try_except
      (serialized_state ← lift (read_json (d !! state_file));
       items ← lift (items_of serialized_state);
       for_each items (λ '(pid_str, info),
         pid ← lift (int_of pid_str);
         e ← lift (entry_of_json info);
         modify (set_tracked <[pid := e]>)))
      (λ _, mret tt).

(** One iteration of the loop of [run] (lines 221-232). *)
Definition cycle (state_file : string) (env : cycle_env) : M world unit :=
  new_processes ← find_python_processes env;
  modify (set_tracked (λ _, new_processes));;
  check_process_status env;;
  save_state (cycle_fs env) state_file.

(** The [while] loop of [run]; [envs] has one environment for each
    iteration that starts before the stop event is seen. *)
Definition poll_loop (state_file : string) (envs : list cycle_env) : M world unit :=
  for_each envs (cycle state_file).

(** [run] (lines 208-240). *)
Definition run (state_file : string) (envs : list cycle_env) (final_fs : fs_env)
    : M world unit :=
  load_state state_file;;
  try_finally
    (try_except (poll_loop state_file envs) (λ _, mret tt))
    (save_state final_fs state_file).

(** ** [MLMonitorUI] *)

Module UI.

(** The keys that [get_process_stats] adds to an entry; the two
    percentages are floats, kept as scaled integers. *)
Record proc_stats := {
  running : bool;
  status : string;
  cpu_percent : option Z;
  memory_percent : option Z;
  gpu_memory : option string;
  gpu_util : option string
}.

Record live_stats := {
  live_cpu_percent : Z;
  live_memory_percent : Z;
  live_status : string
}.

Record ui_entry := {
  info : entry;
  stats : option proc_stats
}.

Record ui_env := {
  ui_disk : gmap string file;
  proc_live : Z → result live_stats;     (* psutil.Process(pid) and its queries *)
  ui_smi : Z → result completed          (* nvidia-smi *)
}.

(** The fields of the viewer object that the refresh uses. *)
Record viewer := {
  state_file : string;
  tracked_processes : gmap Z ui_entry;
  show_all : bool
}.

Definition set_tracked (f : gmap Z ui_entry → gmap Z ui_entry) (v : viewer) : viewer :=
  {| state_file := state_file v; tracked_processes := f (tracked_processes v);
     show_all := show_all v |}.

Fixpoint load_items (items : list (string * json)) (state : gmap Z entry)
    : result (gmap Z entry) :=
  match items with
  | [] => Ok state
  | (pid_str, info) :: rest =>
      pid ← int_of pid_str;
      e ← entry_of_json info;
      load_items rest (<[pid := e]> state)
  end.

(** The [try] block of [load_daemon_state] (lines 26-41). *)
Definition load_body (d : gmap string file) (path : string) : result (gmap Z entry) :=
  serialized_state ← read_json (d !! path);
  items ← items_of serialized_state;
  load_items items ∅.

(** [load_daemon_state] (lines 20-43). *)
Definition load_daemon_state (d : gmap string file) (path : string)
    : result (gmap Z entry) :=
  if negb (path_exists d path) then Ok ∅
  else rcatch (load_body d path) (λ _, Ok ∅).

(** Lines 65-71: every matching line overwrites the two GPU keys. *)
Fixpoint gpu_lines (pid : Z) (lines : list string) (s : proc_stats) : proc_stats :=
  match lines with
  | [] => s
  | line :: rest =>
      if String.eqb (PyStr.strip line) EmptyString then gpu_lines pid rest s
      else
        match PyStr.strip <$> PyStr.split ","%char line with
        | p0 :: p1 :: more =>
            if String.eqb p0 (PyStr.str_of_Z pid)
            then gpu_lines pid rest
                   {| running := running s; status := status s;
                      cpu_percent := cpu_percent s;
                      memory_percent := memory_percent s;
                      gpu_memory := Some p1;
                      gpu_util := Some (match more with
                                        | p2 :: _ => p2
                                        | [] => "N/A"
                                        end) |}
            else gpu_lines pid rest s
        | _ => gpu_lines pid rest s
        end
  end.

(** [get_process_stats] (lines 45-77). *)
Definition get_process_stats (env : ui_env) (pid : Z) : result proc_stats :=
  rcatch
    (live ← proc_live env pid;
     let stats := {| running := true; status := live_status live;
                     cpu_percent := Some (live_cpu_percent live);
                     memory_percent := Some (live_memory_percent live);
                     gpu_memory := None; gpu_util := None |} in
     rcatch
       (result ← ui_smi env pid;
        if returncode result =? 0
        then mret (gpu_lines pid
                     (PyStr.split "010"%char (PyStr.strip (stdout result))) stats)
        else mret stats)
       (λ _, mret stats))
    (λ e, if is_no_such_process e
          then mret {| running := false; status := "terminated";
                       cpu_percent := None; memory_percent := None;
                       gpu_memory := None; gpu_util := None |}
          else Raise e).

(** [update_process_list] (lines 79-93). *)
Definition update_process_list (env : ui_env) : M viewer unit :=
  path ← gets state_file;
  daemon_state ← lift (load_daemon_state (ui_disk env) path);
  modify (set_tracked (λ _, (λ e, {| info := e; stats := None |}) <$> daemon_state));;
  pids ← gets (λ v, (map_to_list (tracked_processes v)).*1);
  for_each pids (λ pid,
    st ← lift (get_process_stats env pid);
    modify (set_tracked (alter (λ e, {| info := info e; stats := Some st |}) pid));;
    show ← gets show_all;
    if negb (running st) && negb show
    then modify (set_tracked (delete pid))
    else mret tt).

End UI.

(** ** What the loops compute

    Closed forms of the loop bodies above; each is proved equal to the
    monadic code it describes before it is used. *)

(** The value that [get_gpu_info_for_process] returns. *)
Definition gpu_value (smi : result completed) (pid : Z) : json :=
  match smi with
  | Ok result =>
      if negb (returncode result =? 0) then JNull
      else find_gpu_line pid (PyStr.split "010"%char (PyStr.strip (stdout result)))
  | Raise _ => JNull
  end.

Definition parent_is_python (p : parent_lookup) : bool :=
  match p with
  | ParentName n => is_python_name n
  | _ => false
  end.

(** The entry of lines 65-71. *)
Definition fresh_entry (env : cycle_env) (proc : proc_info) : entry :=
  {| cmdline := JStr (cmdline_of (pi_cmdline proc));
     start_time := pi_create_time proc;
     username := json_of_opt (pi_username proc);
     last_checked := now_find env (pi_pid proc);
     gpu_info := gpu_value (smi_find env (pi_pid proc)) (pi_pid proc) |}.

Definition find_step (env : cycle_env) (tracked new_processes : gmap Z entry)
    (proc : proc_info) : gmap Z entry :=
  if is_python (pi_name proc) then
    match tracked !! pi_pid proc with
    | Some info => <[pi_pid proc := info]> new_processes
    | None =>
        if pi_pid proc =? getpid env then new_processes
        else if parent_is_python (pi_parent proc) then new_processes
        else <[pi_pid proc := fresh_entry env proc]> new_processes
    end
  else new_processes.

(** Lines 114 and 116 applied to one entry. *)
Definition refresh (env : cycle_env) (pid : Z) (info : entry) : entry :=
  {| cmdline := cmdline info;
     start_time := start_time info;
     username := username info;
     last_checked := now_check env pid;
     gpu_info := gpu_value (smi_check env pid) pid |}.

(** The title and the message of lines 124-130. *)
Definition notice (env : cycle_env) (pid : Z) (info : entry) : fstring * fstring :=
  ([Lit "ML Process Ended - "; Val (username info)],
   [Lit "Command: "; Val (cmdline info);
    Lit "\nDuration: "; ValDelta (DateTime.sub (now_check env pid) (start_time info));
    Lit "\nStart time: "; ValTime (start_time info);
    Lit "\nEnd time: "; ValTime (now_check env pid)]).

(** What [check_process_status] leaves of one entry. *)
Definition check_entry (env : cycle_env) (pid : Z) (info : entry) : option entry :=
  if process_exists env pid then Some (refresh env pid info) else None.

(** The notifications of one pass of [check_process_status]. *)
Definition notices (env : cycle_env) (l : list (Z * entry)) : list (fstring * fstring) :=
  omap (λ '(pid, info),
          if process_exists env pid then None else Some (notice env pid info)) l.

(** The file-system calls of one [save_state]. *)
Definition save_ops (fsenv : fs_env) (state_file : string) (tracked : gmap Z entry)
    : list fs_op :=
  Makedirs (PyStr.dirname state_file) ::
  match makedirs_result fsenv with
  | Raise _ => []
  | Ok _ =>
      match write_result fsenv with
      | OpenRaises _ => []
      | DumpRaises _ partial =>
          [OpenTrunc state_file; WriteFile state_file (Garbage partial)]
      | WriteCompletes =>
          [OpenTrunc state_file;
           WriteFile state_file (Document (serializable_state tracked))]
      end
  end.

(** ** Readers of the state file *)

(** What a reader can find at [path] while the calls [ops] are made one
    after the other on the disk [d]: the content before the first call and
    after each call. *)
Fixpoint reader_views (ops : list fs_op) (d : gmap string file) (path : string)
    : list (option file) :=
  d !! path ::
  match ops with
  | [] => []
  | op :: rest => reader_views rest (fs_apply op d) path
  end.

(** Atomic replace on write, in the words of the specification: the
    content goes to a temporary path, which is then renamed over the
    destination, and nothing else touches the destination. *)
Definition touches (path : string) (op : fs_op) : Prop :=
  match op with
  | Makedirs _ => False
  | OpenTrunc p => p = path
  | WriteFile p _ => p = path
  | Rename src dst => src = path ∨ dst = path
  end.

Definition atomic_replace (ops : list fs_op) (dest : string) : Prop :=
  ∃ pre tmp content,
    tmp ≠ dest ∧
    ops = pre ++ [WriteFile tmp content; Rename tmp dest] ∧
    Forall (λ op, ¬ touches dest op) pre.

(** A reader sees the old content or the new one, never anything else. *)
Definition no_partial_view (ops : list fs_op) (d : gmap string file) (path : string)
    : Prop :=
  Forall (λ v, v = d !! path ∨ v = foldl (flip fs_apply) d ops !! path)
         (reader_views ops d path).

(** ** Notions used in the statements *)

(** The datetimes of an entry are in the range of the [datetime] type. *)
Definition entry_valid (e : entry) : Prop :=
  DateTime.valid (start_time e) = true ∧ DateTime.valid (last_checked e) = true.

(** The three fields that identify an entry. *)
Definition same_identity (e e' : entry) : Prop :=
  cmdline e' = cmdline e ∧ start_time e' = start_time e ∧ username e' = username e.

(** The pids that the first loop of [check_process_status] marks for
    removal. *)
Definition dead_pids (env : cycle_env) (l : list (Z * entry)) : list Z :=
  filter (λ pid, process_exists env pid = false) l.*1.

(** The pids of the snapshot that [find_python_processes] keeps or adds. *)
Definition found (env : cycle_env) (tracked : gmap Z entry) : gmap Z entry :=
  foldl (find_step env tracked) ∅ (snapshot env).

(** The tracked set after the reconciliation of one iteration. *)
Definition cycle_tracked (env : cycle_env) (tracked : gmap Z entry) : gmap Z entry :=
  map_imap (check_entry env) (found env tracked).

(** The world after the file-system calls [ops]. *)
Definition after_ops (ops : list fs_op) (w : world) : world :=
  {| tracked_processes := tracked_processes w;
     disk := foldl (flip fs_apply) (disk w) ops;
     outbox := outbox w;
     fs_log := fs_log w ++ ops |}.

(** [raise] or return of [save_state]: only [os.makedirs] is outside the
    [try]. *)
Definition save_result (fsenv : fs_env) : result unit :=
  match makedirs_result fsenv with
  | Ok _ => Ok tt
  | Raise e => Raise e
  end.

(** [state[pid] = info] for each pair of [l], in order. *)
Definition insert_all (l : list (Z * entry)) (T : gmap Z entry) : gmap Z entry :=
  foldl (λ T '(pid, info), <[pid := info]> T) T l.

(** The filter of lines 38-62 for a process that is not tracked yet. *)
Definition accepted (env : cycle_env) (proc : proc_info) : bool :=
  is_python (pi_name proc)
  && negb (pi_pid proc =? getpid env)
  && negb (parent_is_python (pi_parent proc)).

(** ** Sample data *)

Definition state_path : string := "/var/lib/ml-monitor/state.json".

Definition t0 : datetime := DateTime.mk 2024 1 15 10 30 0 0.
Definition t1 : datetime := DateTime.mk 2024 1 15 10 30 5 250000.

(** A training run started from a shell. *)
Definition train : proc_info :=
  {| pi_pid := 100; pi_name := Some "python"; pi_username := Some "al";
     pi_cmdline := Some ["python"; "train.py"]; pi_create_time := t0;
     pi_parent := ParentName "bash" |}.

(** A worker forked by a Python process. *)
Definition worker : proc_info :=
  {| pi_pid := 200; pi_name := Some "python3"; pi_username := Some "al";
     pi_cmdline := Some ["python3"; "-c"; "work()"]; pi_create_time := t0;
     pi_parent := ParentName "python" |}.

(** A process whose parent has exited. *)
Definition orphan : proc_info :=
  {| pi_pid := 300; pi_name := Some "python"; pi_username := Some "bo";
     pi_cmdline := None; pi_create_time := t0;
     pi_parent := ParentGone |}.

(** A process started with an empty [argv[0]] and no argument. *)
Definition blank : proc_info :=
  {| pi_pid := 400; pi_name := Some "python3"; pi_username := Some "al";
     pi_cmdline := Some [""]; pi_create_time := t0;
     pi_parent := ParentName "bash" |}.

Definition fs_ok : fs_env :=
  {| makedirs_result := Ok tt; write_result := WriteCompletes |}.

(** An iteration in which the process table is [procs] throughout, there
    is no [nvidia-smi], and the notification server answers 200. *)
Definition quiet_env (procs : list proc_info) : cycle_env :=
  {| snapshot := procs;
     getpid := 1;
     now_find := λ _, t1;
     smi_find := λ _, Raise OSError;
     process_exists := λ pid, bool_decide (pid ∈ pi_pid <$> procs);
     now_check := λ _, t1;
     smi_check := λ _, Raise OSError;
     http_post := λ _ _, Ok {| status_code := 200; text := "" |};
     cycle_fs := fs_ok |}.

(** An iteration in which every process dies before the check, the
    notification server cannot be reached, [nvidia-smi] is missing and the
    state file cannot be opened. *)
Definition failing_env (procs : list proc_info) : cycle_env :=
  {| snapshot := procs;
     getpid := 1;
     now_find := λ _, t1;
     smi_find := λ _, Raise OSError;
     process_exists := λ _, false;
     now_check := λ _, t1;
     smi_check := λ _, Raise OSError;
     http_post := λ _ _, Raise RequestException;
     cycle_fs := {| makedirs_result := Ok tt; write_result := OpenRaises OSError |} |}.

Definition train_entry : entry := fresh_entry (quiet_env [train]) train.

Definition sample_world : world :=
  {| tracked_processes := {[ 100 := train_entry ]};
     disk := {[ state_path := Document (JObj []) ]};
     outbox := [];
     fs_log := [] |}.

(** The worlds at the end of the iterations of [poll_loop], up to the
    first iteration that raises. *)
Fixpoint worlds_after (state_file : string) (envs : list cycle_env) (w : world)
    : list world :=
  match envs with
  | [] => []
  | env :: rest =>
      match cycle state_file env w with
      | (Ok _, w') => w' :: worlds_after state_file rest w'
      | (Raise _, w') => [w']
      end
  end.

(** A viewer that shows pid 100, and a state file caught empty, between
    the open and the write of a [save_state]. *)
Definition sample_viewer : UI.viewer :=
  {| UI.state_file := state_path;
     UI.tracked_processes := {[ 100 := {| UI.info := train_entry; UI.stats := None |} ]};
     UI.show_all := false |}.

Definition torn_env : UI.ui_env :=
  {| UI.ui_disk := {[ state_path := Garbage "" ]};
     UI.proc_live := λ _, Raise NoSuchProcess;
     UI.ui_smi := λ _, Raise OSError |}.

(** One turn of the loop of lines 194-202 (and of lines 31-39 of the
    viewer), without the store: the pid and the entry that it reads. *)
Definition parse_item (item : string * json) : result (Z * entry) :=
  pid ← int_of item.1;
  e ← entry_of_json item.2;
  mret (pid, e).

(** The items that the loop reads before the first one that raises, and
    the exception of that one. *)
Fixpoint parse_items (items : list (string * json)) : list (Z * entry) * option exn :=
  match items with
  | [] => ([], None)
  | item :: rest =>
      match parse_item item with
      | Ok p => let '(l, err) := parse_items rest in (p :: l, err)
      | Raise e => ([], Some e)
      end
  end.

(** The five keys that [entry_of_json] reads. *)
Definition entry_keys : list string :=
  ["cmdline"; "start_time"; "username"; "last_checked"; "gpu_info"].

(** The datetimes that an iteration takes from outside are in the range of
    the [datetime] type, as every Python [datetime] is. *)
Definition env_valid (env : cycle_env) : Prop :=
  (∀ proc, proc ∈ snapshot env → DateTime.valid (pi_create_time proc) = true) ∧
  (∀ pid, DateTime.valid (now_find env pid) = true) ∧
  (∀ pid, DateTime.valid (now_check env pid) = true).

(** What [update_process_list] leaves of one loaded entry, given the
    stats of its process (lines 88-93). *)
Definition shown_entry (show : bool) (st : UI.proc_stats) (e : entry)
    : option UI.ui_entry :=
  if UI.running st || show then Some {| UI.info := e; UI.stats := Some st |} else None.

(** ** The screen of the viewer

    The parts of [MLMonitorUI.run] and [format_duration] that compute
    without the terminal: the key bindings, the rows that are drawn, the
    command column and the runtime column. *)

Module Screen.







(** [l[:k]] for a list. *)
Definition py_take {A} (k : Z) (l : list A) : list A :=
  if k <? 0 then take (length l - Z.to_nat (- k)) l else take (Z.to_nat k) l.

(** The loop of lines 186-223: the row of each process that is drawn. *)
Fixpoint draw_loop {A} (height row : Z) (l : list A) : list (Z * A) :=
  match l with
  | [] => []
  | x :: rest =>
      if height - 3 <=? row then []
      else (row, x) :: draw_loop height (row + 1) rest
  end.

(** Lines 183-190. *)
Definition drawn_rows {A} (height : Z) (sorted_processes : list A) : list (Z * A) :=
  let max_rows := height - 8 in
  let displayed_procs := py_take max_rows sorted_processes in
  draw_loop height 5 displayed_procs.

(** [s[:k]] for a string. *)
Definition py_prefix (k : Z) (s : string) : string :=
  if k <? 0 then String.substring 0 (String.length s - Z.to_nat (- k)) s
  else String.substring 0 (Z.to_nat k) s.

(** Lines 212-216, for a command line that is a string. *)
Definition shown_command (width : Z) (cmd : string) : string :=
  let cmd_space := width - 45 in
  if cmd_space <? Z.of_nat (String.length cmd)
  then py_prefix (cmd_space - 3) cmd +:+ "..."
  else cmd.

(** One day in microseconds. *)
Definition day_us : Z := 86400000000.

(** Lines 122-124 for a [timedelta] of [us] microseconds: [duration.days]
    and the [divmod]s of [duration.seconds]. *)
Definition duration_parts (us : Z) : Z * Z * Z * Z :=
  let days := us / day_us in
  let secs := (us mod day_us) / 1000000 in
  let hours := secs / 3600 in
  let remainder := secs mod 3600 in
  let minutes := remainder / 60 in
  let seconds := remainder mod 60 in
  (days, hours, minutes, seconds).

(** Lines 126-133. *)
Definition format_parts (parts : Z * Z * Z * Z) : string :=
  let '(days, hours, minutes, seconds) := parts in
  if 0 <? days then
    PyStr.str_of_Z days +:+ "d " +:+ PyStr.str_of_Z hours +:+ "h "
      +:+ PyStr.str_of_Z minutes +:+ "m"
  else if 0 <? hours then
    PyStr.str_of_Z hours +:+ "h " +:+ PyStr.str_of_Z minutes +:+ "m "
      +:+ PyStr.str_of_Z seconds +:+ "s"
  else if 0 <? minutes then
    PyStr.str_of_Z minutes +:+ "m " +:+ PyStr.str_of_Z seconds +:+ "s"
  else PyStr.str_of_Z seconds +:+ "s".

(** [format_duration] (lines 119-133), with the clock as an argument. *)
Definition format_duration (now start_time : datetime) : string :=
  format_parts (duration_parts (DateTime.sub now start_time)).

End Screen.

(** * Properties *)

(** ** The string routines on small inputs *)

Example str_of_Z_100 : PyStr.str_of_Z 100 = "100".
Proof. reflexivity. Qed.
Example str_of_Z_neg : PyStr.str_of_Z (-4321) = "-4321".
Proof. reflexivity. Qed.
Example str_of_Z_0 : PyStr.str_of_Z 0 = "0".
Proof. reflexivity. Qed.
Example int_of_str_ws : PyStr.int_of_str " +1_000 " = Some 1000.
Proof. reflexivity. Qed.
Example int_of_str_bad : PyStr.int_of_str "1__0" = None.
Proof. reflexivity. Qed.
Example split_ex : PyStr.split ","%char "a,,b" = ["a"; ""; "b"].
Proof. reflexivity. Qed.
Example dirname_ex : PyStr.dirname "/var/lib/ml-monitor/state.json" = "/var/lib/ml-monitor".
Proof. reflexivity. Qed.
Example dirname_root : PyStr.dirname "/state.json" = "/".
Proof. reflexivity. Qed.
Example dirname_none : PyStr.dirname "state.json" = "".
Proof. reflexivity. Qed.

(** ** Decimal printing and parsing *)

Section Decimal.
Import PyStr.

Lemma digit_cases (d : Z) :
  0 <= d < 10 →
  d = 0 ∨ d = 1 ∨ d = 2 ∨ d = 3 ∨ d = 4 ∨ d = 5 ∨ d = 6 ∨ d = 7 ∨ d = 8 ∨ d = 9.
Proof. lia. Qed.

Lemma digit_val_char (d : Z) : 0 <= d < 10 → digit_val (digit_char d) = Some d.
Proof.
  intros H. destruct (digit_cases d H) as [->|[->|[->|[->|[->|[->|[->|[->|[->| ->]]]]]]]]];
    reflexivity.
Qed.

Lemma digit_char_no_space (d : Z) : 0 <= d < 10 → is_space (digit_char d) = false.
Proof.
  intros H. destruct (digit_cases d H) as [->|[->|[->|[->|[->|[->|[->|[->|[->| ->]]]]]]]]];
    reflexivity.
Qed.

Lemma digit_char_not_sign (d : Z) :
  0 <= d < 10 →
  Ascii.eqb (digit_char d) "-"%char = false ∧ Ascii.eqb (digit_char d) "+"%char = false.
Proof.
  intros H. destruct (digit_cases d H) as [->|[->|[->|[->|[->|[->|[->|[->|[->| ->]]]]]]]]];
    split; reflexivity.
Qed.

Lemma mod10_range (n : Z) : 0 <= n mod 10 < 10.
Proof. apply Z.mod_pos_bound. lia. Qed.

(** One more digit at the end of what [take_digits] reads. *)
Lemma take_digits_snoc (w : nat) : ∀ s a v c t d,
  take_digits w s a = Some (v, String c t) →
  digit_val c = Some d →
  take_digits (S w) s a = Some (10 * v + d, t).
Proof.
  induction w as [|w IH]; intros s a v c t d Ht Hd.
  - simpl in Ht. injection Ht as <- ->. simpl. by rewrite Hd.
  - destruct s as [|c' s']; [discriminate|].
    change (take_digits (S (S w)) (String c' s') a)
      with (match digit_val c' with
            | Some d' => take_digits (S w) s' (10 * a + d')
            | None => None
            end).
    simpl in Ht. destruct (digit_val c') as [d'|]; [|discriminate].
    apply (IH _ _ _ _ _ _ Ht Hd).
Qed.

Lemma pow10_succ (w : nat) : 10 ^ Z.of_nat (S w) = 10 * 10 ^ Z.of_nat w.
Proof. rewrite Nat2Z.inj_succ, Z.pow_succ_r by lia. reflexivity. Qed.

Lemma pow10_pos (w : nat) : 0 < 10 ^ Z.of_nat w.
Proof. apply Z.pow_pos_nonneg; lia. Qed.

(** Reading back the fixed-width digits of a number. *)
Lemma take_digits_zpad (w : nat) : ∀ n t a,
  take_digits w (zpad w n t) a = Some (a * 10 ^ Z.of_nat w + n mod 10 ^ Z.of_nat w, t).
Proof.
  induction w as [|w IH]; intros n t a.
  - simpl. rewrite Z.mod_1_r. do 2 f_equal. lia.
  - change (zpad (S w) n t) with (zpad w (n / 10) (String (digit_char (n mod 10)) t)).
    erewrite take_digits_snoc; [|apply IH|apply digit_val_char, mod10_range].
    do 2 f_equal. rewrite pow10_succ.
    rewrite (Z.rem_mul_r n 10 (10 ^ Z.of_nat w)) by (try apply pow10_pos; lia).
    lia.
Qed.

Lemma take_digits_zpad_small (w : nat) (n : Z) (t : string) :
  0 <= n < 10 ^ Z.of_nat w →
  take_digits w (zpad w n t) 0 = Some (n, t).
Proof.
  intros H. rewrite take_digits_zpad, Z.mod_small by done. do 2 f_equal.
Qed.

Lemma int_digits_take (w : nat) : ∀ s a b v t,
  take_digits w s a = Some (v, t) →
  (0 < w)%nat →
  int_digits s a b = int_digits t v true.
Proof.
  induction w as [|w IH]; intros s a b v t Ht Hw; [lia|].
  destruct s as [|c s']; [discriminate|].
  simpl in Ht. simpl. destruct (digit_val c) as [d|]; [|discriminate].
  destruct w as [|w'].
  - simpl in Ht. by injection Ht as <- <-.
  - apply (IH _ _ _ _ _ Ht). lia.
Qed.

Lemma ndigits_go_bound (fuel : nat) : ∀ n,
  0 <= n < 2 ^ Z.of_nat (S fuel) →
  n < 10 ^ Z.of_nat (ndigits_go fuel n).
Proof.
  induction fuel as [|f IH]; intros n Hn.
  - simpl in *. lia.
  - simpl ndigits_go. destruct (Z.ltb_spec n 10) as [Hlt|Hge]; [simpl; lia|].
    rewrite pow10_succ.
    assert (n / 10 < 10 ^ Z.of_nat (ndigits_go f (n / 10))) as Hrec.
    { apply IH. rewrite (Nat2Z.inj_succ (S f)), Z.pow_succ_r in Hn by lia.
      split; [apply Z.div_pos; lia|].
      apply Z.div_lt_upper_bound; lia. }
    pose proof (Z.div_mod n 10 ltac:(lia)). pose proof (mod10_range n). lia.
Qed.

Lemma ndigits_bound (n : Z) : 0 <= n → n < 10 ^ Z.of_nat (ndigits n).
Proof.
  intros Hn. apply ndigits_go_bound. split; [done|].
  rewrite Nat2Z.inj_succ, Z2Nat.id by apply Z.log2_nonneg.
  destruct (Z.eq_dec n 0) as [->|Hne]; [reflexivity|].
  apply Z.log2_spec. lia.
Qed.

Lemma ndigits_pos (n : Z) : (0 < ndigits n)%nat.
Proof.
  unfold ndigits. destruct (Z.to_nat (Z.log2 n)); simpl; [lia|].
  destruct (n <? 10); lia.
Qed.

Lemma zpad_no_space (w : nat) : ∀ n t,
  no_space t = true → no_space (zpad w n t) = true.
Proof.
  induction w as [|w IH]; intros n t Ht; [done|].
  cbn [zpad]. apply IH. cbn [no_space].
  rewrite digit_char_no_space by apply mod10_range. exact Ht.
Qed.

(** A non-empty [zpad] starts with a digit. *)
Lemma zpad_head (w : nat) : ∀ n t,
  (0 < w)%nat → ∃ d rest, 0 <= d < 10 ∧ zpad w n t = String (digit_char d) rest.
Proof.
  induction w as [|w IH]; intros n t Hw; [lia|].
  destruct w as [|w'].
  - simpl. eexists _, _. split; [apply mod10_range|done].
  - change (zpad (S (S w')) n t)
      with (zpad (S w') (n / 10) (String (digit_char (n mod 10)) t)).
    apply IH. lia.
Qed.

Lemma rev_app_rev_app (s1 : string) : ∀ s2 s3,
  String.rev_app (String.rev_app s1 s2) s3 = String.rev_app s2 (s1 +:+ s3).
Proof.
  induction s1 as [|a s1 IH]; intros s2 s3; [done|].
  simpl. by rewrite IH.
Qed.

Lemma append_empty_r (s : string) : s +:+ EmptyString = s.
Proof.
  induction s as [|a s IH]; [done|].
  change (String a (s +:+ EmptyString) = String a s). by rewrite IH.
Qed.

Lemma rev_involutive (s : string) : String.rev (String.rev s) = s.
Proof. unfold String.rev. rewrite rev_app_rev_app. apply append_empty_r. Qed.

Lemma rev_app_no_space (s : string) : ∀ t,
  no_space s = true → no_space t = true → no_space (String.rev_app s t) = true.
Proof.
  induction s as [|a s IH]; intros t Hs Ht; [done|].
  simpl in *. apply andb_prop in Hs as [Ha Hs]. apply IH; [done|].
  simpl. by rewrite Ha, Ht.
Qed.

Lemma lstrip_no_space (s : string) : no_space s = true → lstrip s = s.
Proof.
  destruct s as [|c s]; [done|]. simpl. intros [Hc _]%andb_prop.
  by destruct (is_space c).
Qed.

Lemma strip_no_space (s : string) : no_space s = true → strip s = s.
Proof.
  intros Hs. unfold strip, rstrip. rewrite (lstrip_no_space s Hs).
  rewrite lstrip_no_space; [apply rev_involutive|].
  by apply rev_app_no_space.
Qed.

Lemma int_digits_zpad (n : Z) :
  0 <= n → int_digits (zpad (ndigits n) n EmptyString) 0 false = Some n.
Proof.
  intros Hn.
  rewrite (int_digits_take (ndigits n) _ 0 false n EmptyString); [done| |apply ndigits_pos].
  apply take_digits_zpad_small. split; [done|]. by apply ndigits_bound.
Qed.

(** [int(str(n)) == n] *)
Lemma int_of_str_of_Z (n : Z) : int_of_str (str_of_Z n) = Some n.
Proof.
  unfold int_of_str, str_of_Z. destruct (Z.ltb_spec n 0) as [Hneg|Hpos].
  - rewrite strip_no_space by (simpl; by apply zpad_no_space).
    simpl. rewrite int_digits_zpad by lia. simpl. f_equal. lia.
  - rewrite strip_no_space by (by apply zpad_no_space).
    destruct (zpad_head (ndigits n) n EmptyString (ndigits_pos n)) as (d & rest & Hd & Heq).
    pose proof (int_digits_zpad n Hpos) as Hint. rewrite Heq in Hint |- *.
    destruct (digit_char_not_sign d Hd) as [-> ->]. done.
Qed.

End Decimal.

(** ** ISO timestamps *)

Section IsoFormat.
Import PyStr.

Lemma expect_cons c s : DateTime.expect c (String c s) = Some s.
Proof. unfold DateTime.expect. by rewrite Ascii.eqb_refl. Qed.

Lemma fromisoformat_isoformat d :
DateTime.valid d = true → DateTime.fromisoformat (DateTime.isoformat d) = Some d.
Proof.
destruct d as [y m dd hh mi ss us]. unfold DateTime.valid. cbn [DateTime.year DateTime.month DateTime.day DateTime.hour DateTime.minute DateTime.second DateTime.microsecond].
intros H. repeat (apply andb_prop in H as [H ?]).
unfold DateTime.fromisoformat, DateTime.isoformat.
cbn [DateTime.year DateTime.month DateTime.day DateTime.hour DateTime.minute DateTime.second DateTime.microsecond].
rewrite take_digits_zpad_small by (change (10 ^ Z.of_nat 4) with 10000; lia).
cbn [mbind option_bind].
rewrite expect_cons. cbn [mbind option_bind].
rewrite take_digits_zpad_small by (change (10 ^ Z.of_nat 2) with 100; lia).
cbn [mbind option_bind]. rewrite expect_cons. cbn [mbind option_bind].
assert (DateTime.days_in_month y m <= 31) as Hdim.
{ unfold DateTime.days_in_month. repeat case_match; lia. }
rewrite take_digits_zpad_small by (change (10 ^ Z.of_nat 2) with 100; lia).
cbn [mbind option_bind]. unfold DateTime.parse_time.
rewrite take_digits_zpad_small by (change (10 ^ Z.of_nat 2) with 100; lia).
cbn [mbind option_bind]. rewrite expect_cons. cbn [mbind option_bind].
rewrite take_digits_zpad_small by (change (10 ^ Z.of_nat 2) with 100; lia).
cbn [mbind option_bind]. rewrite expect_cons. cbn [mbind option_bind].
rewrite take_digits_zpad_small by (change (10 ^ Z.of_nat 2) with 100; lia).
cbn [mbind option_bind].
assert (DateTime.make y m dd hh mi ss us = Some (DateTime.mk y m dd hh mi ss us)) as Hmk.
{ unfold DateTime.make, DateTime.valid. cbn [DateTime.year DateTime.month DateTime.day DateTime.hour DateTime.minute DateTime.second DateTime.microsecond].
  by rewrite H, H0, H1, H2, H3, H4, H5, H6, H7, H8, H9, H10, H11, H12. }
destruct (Z.eqb_spec us 0) as [->|Hus].
- exact Hmk.
- rewrite expect_cons. cbn [mbind option_bind]. unfold DateTime.parse_fraction.
  rewrite take_digits_zpad_small by (change (10 ^ Z.of_nat 6) with 1000000; lia).
  cbn [mbind option_bind]. exact Hmk.
Qed.

End IsoFormat.

(** ** The loops of the daemon *)

Ltac msimpl :=
  unfold mbind, mret, M_bind, M_ret, result_bind, result_ret, lift, gets,
    modify, try_except, rcatch, or_raise;
  cbn beta iota.

Lemma get_gpu_info_ok smi pid :
  get_gpu_info_for_process smi pid = Ok (gpu_value smi pid).
Proof.
  unfold get_gpu_info_for_process, gpu_value. destruct smi as [r|e]; msimpl; [|done].
  by destruct (negb _).
Qed.

Lemma find_body_step env new proc w :
  find_body env new proc w = (Ok (find_step env (tracked_processes w) new proc), w).
Proof.
  unfold find_body, find_step. msimpl.
  destruct (is_python (pi_name proc)); [|done]. msimpl.
  destruct (tracked_processes w !! pi_pid proc) as [info|]; [done|].
  destruct (pi_pid proc =? getpid env); [done|].
  destruct (pi_parent proc) as [n| |]; msimpl;
    cbn [parent_name is_psutil_error parent_is_python];
    rewrite ?get_gpu_info_ok; [|done..].
  by destruct (is_python_name n).
Qed.

(** [find_python_processes] never raises and changes nothing. *)
Lemma find_python_processes_eq env w :
  find_python_processes env w
  = (Ok (foldl (find_step env (tracked_processes w)) ∅ (snapshot env)), w).
Proof.
  unfold find_python_processes. generalize (∅ : gmap Z entry).
  induction (snapshot env) as [|proc l IH]; intros new; [done|].
  cbn [for_fold foldl]. msimpl. rewrite find_body_step. apply IH.
Qed.

Lemma send_notification_eq env title message w :
  send_notification env title message w
  = (Ok match http_post env title message with
        | Ok r => status_code r =? 200
        | Raise _ => false
        end, record_call title message w).
Proof.
  unfold send_notification. msimpl. by destruct (http_post env title message).
Qed.

Lemma check_body_alive env term pid info w :
  tracked_processes w !! pid = Some info →
  process_exists env pid = true →
  check_body env term pid w
  = (Ok term, set_tracked <[pid := refresh env pid info]> w).
Proof.
  intros Hin Halive. unfold check_body, psutil_Process, tracked_at. msimpl.
  rewrite Halive, Hin. cbn [set_tracked tracked_processes].
  rewrite get_gpu_info_ok, lookup_insert_eq.
  cbn [cmdline start_time username last_checked gpu_info].
  unfold set_tracked, refresh. cbn [tracked_processes disk outbox fs_log].
  by rewrite insert_insert_eq.
Qed.

Lemma check_body_dead env term pid info w :
  tracked_processes w !! pid = Some info →
  process_exists env pid = false →
  check_body env term pid w
  = (Ok (term ++ [pid]),
     record_call (notice env pid info).1 (notice env pid info).2 w).
Proof.
  intros Hin Hdead. unfold check_body, psutil_Process, tracked_at. msimpl.
  rewrite Hdead. cbn [is_no_such_process]. rewrite Hin.
  by rewrite send_notification_eq.
Qed.

(** The first loop of [check_process_status], over the entries [l] of the
    tracked set. *)
Lemma check_loop env (l : list (Z * entry)) : ∀ term w,
  NoDup l.*1 →
  (∀ pid info, (pid, info) ∈ l → tracked_processes w !! pid = Some info) →
  ∃ w',
    for_fold l.*1 (check_body env) term w = (Ok (term ++ dead_pids env l), w') ∧
    (∀ pid, tracked_processes w' !! pid
            = if decide (pid ∈ l.*1 ∧ process_exists env pid = true)
              then refresh env pid <$> tracked_processes w !! pid
              else tracked_processes w !! pid) ∧
    outbox w' = outbox w ++ notices env l ∧
    disk w' = disk w ∧ fs_log w' = fs_log w.
Proof.
  induction l as [|[pid info] l IH]; intros term w Hnd Hl.
  - exists w. unfold dead_pids, notices. cbn. rewrite !app_nil_r.
    split_and!; done.
  - rewrite fmap_cons in Hnd |- *. cbn [fst for_fold] in Hnd |- *. msimpl.
    apply NoDup_cons in Hnd as [Hnotin Hnd].
    assert (tracked_processes w !! pid = Some info) as Hpid by (apply Hl; left).
    destruct (process_exists env pid) eqn:Halive.
    + rewrite (check_body_alive _ _ _ _ _ Hpid Halive).
      destruct (IH term (set_tracked <[pid := refresh env pid info]> w) Hnd)
        as (w' & Hrun & Htr & Hout & Hdisk & Hlog).
      { intros pid' info' Hin. cbn. rewrite lookup_insert_ne; [apply Hl; by right|].
        intros ->. apply Hnotin. apply list_elem_of_fmap. by exists (pid', info'). }
      exists w'. split_and!; [|intros pid'; rewrite Htr|..].
      * rewrite Hrun. unfold dead_pids. rewrite fmap_cons. cbn [fst].
        rewrite filter_cons_False; [done|]. cbn. by rewrite Halive.
      * cbn [set_tracked tracked_processes].
        destruct (decide (pid' = pid)) as [->|Hne].
        -- rewrite lookup_insert_eq, Hpid.
           rewrite decide_False by tauto.
           rewrite decide_True; [done|]. split; [left|done].
        -- rewrite lookup_insert_ne by done.
           apply decide_ext. rewrite elem_of_cons. tauto.
      * rewrite Hout. unfold notices. cbn. by rewrite Halive.
      * done.
      * done.
    + rewrite (check_body_dead _ _ _ _ _ Hpid Halive).
      destruct (IH (term ++ [pid])
                  (record_call (notice env pid info).1 (notice env pid info).2 w) Hnd)
        as (w' & Hrun & Htr & Hout & Hdisk & Hlog).
      { intros pid' info' Hin. cbn. apply Hl. by right. }
      exists w'. split_and!; [|intros pid'; rewrite Htr; cbn [record_call tracked_processes]|..].
      * rewrite Hrun. unfold dead_pids. rewrite fmap_cons. cbn [fst].
        rewrite filter_cons_True by done. by rewrite <-(assoc_L (++)).
      * apply decide_ext. rewrite elem_of_cons. split; [tauto|].
        intros [[->|?] ?]; [congruence|done].
      * rewrite Hout. unfold notices. cbn. rewrite Halive. cbn.
        by rewrite <-(assoc_L (++)).
      * done.
      * done.
Qed.

(** The second loop of [check_process_status]. *)
Lemma delete_loop (dead : list Z) : ∀ w,
  for_each dead (λ pid, modify (set_tracked (delete pid))) w
  = (Ok tt, set_tracked (λ T, foldl (λ T pid, delete pid T) T dead) w).
Proof.
  induction dead as [|pid dead IH]; intros w.
  - cbn. by destruct w.
  - cbn [for_each foldl]. msimpl. by rewrite IH.
Qed.

Lemma lookup_foldl_delete (dead : list Z) : ∀ (T : gmap Z entry) pid,
  foldl (λ T pid, delete pid T) T dead !! pid
  = if decide (pid ∈ dead) then None else T !! pid.
Proof.
  induction dead as [|d dead IH]; intros T pid; cbn [foldl].
  - rewrite decide_False; [done|]. apply not_elem_of_nil.
  - rewrite IH. destruct (decide (pid ∈ dead)) as [Hin|Hnin].
    + rewrite decide_True; [done|]. by right.
    + destruct (decide (pid = d)) as [->|Hne].
      * rewrite lookup_delete_eq, decide_True; [done|]. by left.
      * rewrite lookup_delete_ne by done. rewrite decide_False; [done|].
        rewrite elem_of_cons. tauto.
Qed.

(** [check_process_status] never raises: the entries of processes that
    still exist are refreshed, the others are notified and deleted. *)
Lemma check_process_status_eq env w :
  check_process_status env w
  = (Ok tt,
     {| tracked_processes := map_imap (check_entry env) (tracked_processes w);
        disk := disk w;
        outbox := outbox w ++ notices env (map_to_list (tracked_processes w));
        fs_log := fs_log w |}).
Proof.
  unfold check_process_status. msimpl.
  destruct (check_loop env (map_to_list (tracked_processes w)) [] w)
    as (w' & Hrun & Htr & Hout & Hdisk & Hlog).
  { apply NoDup_fst_map_to_list. }
  { intros pid info Hin. by apply elem_of_map_to_list. }
  rewrite Hrun, delete_loop. f_equal. cbn [app].
  destruct w' as [T' d' o' l']. cbn in *. unfold set_tracked. cbn. subst d' o' l'.
  f_equal. apply map_eq. intros pid.
  rewrite lookup_foldl_delete, map_lookup_imap, Htr. unfold dead_pids, check_entry.
  destruct (tracked_processes w !! pid) as [info|] eqn:Hpid; cbn.
  - assert (pid ∈ (map_to_list (tracked_processes w)).*1) as Hin.
    { apply list_elem_of_fmap. exists (pid, info). split; [done|].
      by apply elem_of_map_to_list. }
    destruct (process_exists env pid) eqn:Halive.
    + rewrite decide_False, decide_True; [done|done|].
      rewrite list_elem_of_filter. intros [? _]. congruence.
    + rewrite decide_True; [done|]. by rewrite list_elem_of_filter.
  - case_decide; [done|]. by case_decide.
Qed.

(** ** Saving and loading *)

Lemma after_ops_nil w : after_ops [] w = w.
Proof. unfold after_ops. cbn. rewrite app_nil_r. by destruct w. Qed.

Lemma after_ops_cons op ops w : after_ops (op :: ops) w = after_ops ops (fs_do op w).
Proof. unfold after_ops, fs_do. cbn. by rewrite <-(assoc_L (++)). Qed.

(** [save_state] makes the calls [save_ops] and raises only what
    [os.makedirs] raises. *)
Lemma save_state_eq fsenv path w :
  save_state fsenv path w
  = (save_result fsenv, after_ops (save_ops fsenv path (tracked_processes w)) w).
Proof.
  unfold save_state, save_ops, save_result, os_makedirs, open_write, json_dump.
  msimpl. rewrite after_ops_cons.
  destruct (makedirs_result fsenv) as [[]|e]; [|by rewrite after_ops_nil].
  cbn [fs_do tracked_processes].
  destruct (write_result fsenv) as [|e|e partial].
  - by rewrite !after_ops_cons, after_ops_nil.
  - by rewrite after_ops_nil.
  - by rewrite !after_ops_cons, after_ops_nil.
Qed.

Lemma getitem_serialize (e : entry) :
  getitem (serialize_entry e) "cmdline" = Ok (cmdline e) ∧
  getitem (serialize_entry e) "start_time" = Ok (JStr (DateTime.isoformat (start_time e))) ∧
  getitem (serialize_entry e) "username" = Ok (username e) ∧
  getitem (serialize_entry e) "last_checked" = Ok (JStr (DateTime.isoformat (last_checked e))) ∧
  getitem (serialize_entry e) "gpu_info" = Ok (gpu_info e).
Proof. split_and!; reflexivity. Qed.

(** Reading back one serialized entry. *)
Lemma entry_of_json_serialize (e : entry) :
  entry_valid e → entry_of_json (serialize_entry e) = Ok e.
Proof.
  intros [Hst Hlc]. unfold entry_of_json.
  destruct (getitem_serialize e) as (-> & -> & -> & -> & ->).
  msimpl. unfold fromisoformat_json.
  rewrite !fromisoformat_isoformat by done. cbn. by destruct e.
Qed.

Lemma int_of_str_of_Z_ok (pid : Z) : int_of (PyStr.str_of_Z pid) = Ok pid.
Proof. unfold int_of. by rewrite int_of_str_of_Z. Qed.

Lemma insert_all_list_to_map (l : list (Z * entry)) : ∀ T,
  NoDup l.*1 → insert_all l T = list_to_map l ∪ T.
Proof.
  induction l as [|[pid info] l IH]; intros T Hnd.
  - cbn. by rewrite (left_id_L ∅ (∪)).
  - rewrite fmap_cons in Hnd. apply NoDup_cons in Hnd as [Hnotin Hnd].
    cbn [insert_all foldl]. fold (insert_all l (<[pid:=info]> T)).
    rewrite IH by done. rewrite list_to_map_cons.
    rewrite <-insert_union_l. symmetry. apply insert_union_r.
    by apply not_elem_of_list_to_map_1.
Qed.

Lemma insert_all_map_to_list (T : gmap Z entry) : insert_all (map_to_list T) ∅ = T.
Proof.
  rewrite insert_all_list_to_map by apply NoDup_fst_map_to_list.
  by rewrite list_to_map_to_list, (right_id_L ∅ (∪)).
Qed.

(** The loop of [load_state] over the items that [save_state] wrote. *)
Lemma load_loop (l : list (Z * entry)) : ∀ w,
  Forall (λ p, entry_valid p.2) l →
  for_each ((λ '(pid, info), (PyStr.str_of_Z pid, serialize_entry info)) <$> l)
    (λ '(pid_str, info),
       pid ← lift (int_of pid_str);
       e ← lift (entry_of_json info);
       modify (set_tracked <[pid := e]>)) w
  = (Ok tt, set_tracked (insert_all l) w).
Proof.
  induction l as [|[pid info] l IH]; intros w Hl.
  - cbn. by destruct w.
  - apply Forall_cons in Hl as [Hv Hl]. rewrite fmap_cons. cbn [for_each]. msimpl.
    rewrite int_of_str_of_Z_ok, entry_of_json_serialize by done.
    by rewrite IH.
Qed.

Lemma load_state_missing path w :
  disk w !! path = None → load_state path w = (Ok tt, w).
Proof. intros H. unfold load_state, path_exists. msimpl. by rewrite H. Qed.

Lemma load_state_saved path T w :
  disk w !! path = Some (Document (serializable_state T)) →
  map_Forall (λ _ e, entry_valid e) T →
  load_state path w = (Ok tt, set_tracked (insert_all (map_to_list T)) w).
Proof.
  intros Hd HT. unfold load_state, path_exists. msimpl. rewrite Hd.
  cbn [negb read_json items_of serializable_state].
  rewrite load_loop; [done|].
  apply Forall_forall. intros [pid info] Hin%elem_of_map_to_list. by apply (HT pid).
Qed.

(** The same loop in the viewer. *)
Lemma load_items_saved (l : list (Z * entry)) : ∀ state,
  Forall (λ p, entry_valid p.2) l →
  UI.load_items ((λ '(pid, info), (PyStr.str_of_Z pid, serialize_entry info)) <$> l) state
  = Ok (insert_all l state).
Proof.
  induction l as [|[pid info] l IH]; intros state Hl; [done|].
  apply Forall_cons in Hl as [Hv Hl]. rewrite fmap_cons. cbn [UI.load_items]. msimpl.
  rewrite int_of_str_of_Z_ok, entry_of_json_serialize by done.
  by rewrite IH.
Qed.

Lemma load_daemon_state_saved path T (d : gmap string file) :
  d !! path = Some (Document (serializable_state T)) →
  map_Forall (λ _ e, entry_valid e) T →
  UI.load_daemon_state d path = Ok T.
Proof.
  intros Hd HT. unfold UI.load_daemon_state, UI.load_body, path_exists. rewrite Hd.
  msimpl. cbn [negb read_json items_of serializable_state].
  rewrite load_items_saved, insert_all_map_to_list; [done|].
  apply Forall_forall. intros [pid info] Hin%elem_of_map_to_list. by apply (HT pid).
Qed.

(** ** One iteration of the loop *)

Lemma cycle_eq path env w :
  cycle path env w
  = (save_result (cycle_fs env),
     after_ops (save_ops (cycle_fs env) path (cycle_tracked env (tracked_processes w)))
       {| tracked_processes := cycle_tracked env (tracked_processes w);
          disk := disk w;
          outbox := outbox w
                    ++ notices env (map_to_list (found env (tracked_processes w)));
          fs_log := fs_log w |}).
Proof.
  unfold cycle. msimpl. rewrite find_python_processes_eq.
  rewrite check_process_status_eq. cbn [set_tracked tracked_processes disk outbox fs_log].
  by rewrite save_state_eq.
Qed.

(** ** What [find_python_processes] keeps and adds *)

Section Found.
Context (env : cycle_env) (T : gmap Z entry).

Lemma find_step_other new proc pid :
  pi_pid proc ≠ pid → find_step env T new proc !! pid = new !! pid.
Proof.
  intros Hne. unfold find_step. repeat case_match; try done;
    by rewrite lookup_insert_ne.
Qed.

Lemma foldl_find_step_other (l : list proc_info) : ∀ new pid,
  pid ∉ pi_pid <$> l →
  foldl (find_step env T) new l !! pid = new !! pid.
Proof.
  induction l as [|proc l IH]; intros new pid Hnin; [done|].
  rewrite fmap_cons in Hnin. apply not_elem_of_cons in Hnin as [Hne Hnin].
  cbn [foldl]. rewrite IH by done. by apply find_step_other.
Qed.

(** A pid that is already tracked keeps its entry, untouched, or is left out. *)
Lemma find_step_tracked new proc pid e :
  T !! pid = Some e →
  (new !! pid = None ∨ new !! pid = Some e) →
  find_step env T new proc !! pid = None ∨ find_step env T new proc !! pid = Some e.
Proof.
  intros HT Hnew. destruct (decide (pi_pid proc = pid)) as [<-|Hne].
  - unfold find_step. rewrite HT. destruct (is_python _); [|done].
    right. apply lookup_insert_eq.
  - by rewrite find_step_other.
Qed.

Lemma found_tracked pid e :
  T !! pid = Some e →
  found env T !! pid = None ∨ found env T !! pid = Some e.
Proof.
  intros HT. unfold found.
  assert ((∅ : gmap Z entry) !! pid = None ∨ (∅ : gmap Z entry) !! pid = Some e) as Hinit
    by (left; apply lookup_empty).
  revert Hinit. generalize (∅ : gmap Z entry).
  induction (snapshot env) as [|proc l IH]; intros new Hnew; [done|].
  cbn [foldl]. apply IH. by apply find_step_tracked.
Qed.

(** Nothing outside the snapshot is found. *)
Lemma found_in_snapshot pid :
  pid ∉ pi_pid <$> snapshot env → found env T !! pid = None.
Proof.
  intros Hnin. unfold found. rewrite foldl_find_step_other by done. apply lookup_empty.
Qed.

(** An untracked pid whose processes are all turned down is not found. *)
Lemma found_rejected pid :
  T !! pid = None →
  (∀ proc, proc ∈ snapshot env → pi_pid proc = pid → accepted env proc = false) →
  found env T !! pid = None.
Proof.
  intros HT. unfold found.
  assert ((∅ : gmap Z entry) !! pid = None) as Hinit by apply lookup_empty.
  revert Hinit. generalize (∅ : gmap Z entry).
  induction (snapshot env) as [|proc l IH]; intros new Hnew Hall; [done|].
  cbn [foldl]. apply IH.
  - destruct (decide (pi_pid proc = pid)) as [Heq|Hne]; [|by rewrite find_step_other].
    pose proof (Hall proc ltac:(left) Heq) as Hacc. unfold accepted in Hacc.
    subst pid. unfold find_step. rewrite HT.
    destruct (is_python _); [|done]. destruct (pi_pid proc =? getpid env); [done|].
    destruct (parent_is_python _); [done|discriminate].
  - intros proc' Hin. apply Hall. by right.
Qed.

(** An untracked, accepted process of a snapshot without repeated pids
    gets the fresh entry. *)
Lemma found_accepted proc :
  proc ∈ snapshot env →
  NoDup (pi_pid <$> snapshot env) →
  T !! pi_pid proc = None →
  accepted env proc = true →
  found env T !! pi_pid proc = Some (fresh_entry env proc).
Proof.
  intros Hin Hnd HT Hacc. unfold found. generalize (∅ : gmap Z entry).
  induction (snapshot env) as [|p l IH]; intros new; [by apply elem_of_nil in Hin|].
  rewrite fmap_cons in Hnd. apply NoDup_cons in Hnd as [Hnotin Hnd].
  cbn [foldl]. apply elem_of_cons in Hin as [<-|Hin].
  - rewrite foldl_find_step_other by done.
    unfold accepted in Hacc. apply andb_prop in Hacc as [[H1 H2]%andb_prop H3].
    unfold find_step. rewrite H1, HT.
    destruct (pi_pid proc =? getpid env); [discriminate|].
    destruct (parent_is_python _); [discriminate|]. apply lookup_insert_eq.
  - by apply IH.
Qed.

Lemma cycle_tracked_lookup pid :
  cycle_tracked env T !! pid = found env T !! pid ≫= check_entry env pid.
Proof. unfold cycle_tracked. apply map_lookup_imap. Qed.

(** One iteration leaves the identity of a surviving entry alone. *)
Lemma cycle_tracked_identity pid e e' :
  T !! pid = Some e →
  cycle_tracked env T !! pid = Some e' →
  e' = refresh env pid e.
Proof.
  intros HT. rewrite cycle_tracked_lookup.
  destruct (found_tracked pid e HT) as [-> | ->]; [done|].
  cbn. unfold check_entry. destruct (process_exists env pid); [|done]. congruence.
Qed.

End Found.

Lemma tracked_after_cycle path env w :
  tracked_processes (cycle path env w).2 = cycle_tracked env (tracked_processes w).
Proof. by rewrite cycle_eq. Qed.

Lemma outbox_after_cycle path env w :
  outbox (cycle path env w).2
  = outbox w ++ notices env (map_to_list (found env (tracked_processes w))).
Proof. by rewrite cycle_eq. Qed.

(** With a process table that does not change between the enumeration and
    the check, an iteration sends nothing. *)
Lemma coherent_cycle_sends_nothing path env w :
  (∀ proc, proc ∈ snapshot env → process_exists env (pi_pid proc) = true) →
  outbox (cycle path env w).2 = outbox w.
Proof.
  intros Hcoh. rewrite outbox_after_cycle.
  assert (notices env (map_to_list (found env (tracked_processes w))) = []) as ->;
    [|by rewrite app_nil_r].
  unfold notices.
  assert (Forall (λ p : Z * entry, process_exists env p.1 = true)
            (map_to_list (found env (tracked_processes w)))) as Hall.
  { apply Forall_forall. intros [pid info] Hin%elem_of_map_to_list. cbn.
    destruct (decide (pid ∈ pi_pid <$> snapshot env)) as [Hs|Hns].
    - apply list_elem_of_fmap in Hs as (proc & -> & Hproc). by apply Hcoh.
    - by rewrite found_in_snapshot in Hin. }
  induction Hall as [|[pid info] l Hp Hl IH]; [done|].
  cbn in *. by rewrite Hp.
Qed.

(** A tracked pid that the snapshot does not list is dropped. *)
Lemma absent_pid_dropped path env w pid :
  pid ∉ pi_pid <$> snapshot env →
  tracked_processes (cycle path env w).2 !! pid = None.
Proof.
  intros Hnin. rewrite tracked_after_cycle, cycle_tracked_lookup.
  by rewrite found_in_snapshot.
Qed.

Example isoformat_microseconds : DateTime.isoformat t1 = "2024-01-15T10:30:05.250000".
Proof. reflexivity. Qed.
Example isoformat_whole_second : DateTime.isoformat t0 = "2024-01-15T10:30:00".
Proof. reflexivity. Qed.
Example fromisoformat_milliseconds : DateTime.fromisoformat "2024-01-15 10:30:05.250" = Some t1.
Proof. reflexivity. Qed.
Example fromisoformat_bad_day : DateTime.fromisoformat "2024-02-30T10:30:05" = None.
Proof. reflexivity. Qed.
Example first_poll_tracks_train : tracked_processes (cycle state_path (quiet_env [train; worker]) (init ∅)).2 = {[ 100 := train_entry ]}.
Proof. vm_compute. reflexivity. Qed.
Example poll_without_train : (cycle state_path (quiet_env []) sample_world).2 =
   {| tracked_processes := ∅; disk := {[ state_path := Document (JObj []) ]}; outbox := [];
      fs_log := [Makedirs "/var/lib/ml-monitor"; OpenTrunc state_path; WriteFile state_path (Document (JObj []))] |}.
Proof. vm_compute. reflexivity. Qed.

(** * The claims *)

(** C1 (the code departs from the claim). The scenario of the
    specification: pid 100 is seen by two polls and is absent from the
    process snapshot of the third. The entry is removed on the third
    poll, but [send_notification] is not called: no call is recorded. *)
Theorem absent_pid_removed_without_notification :
  let w2 := (poll_loop state_path [quiet_env [train]; quiet_env [train]] (init ∅)).2 in
  let w3 := (cycle state_path (quiet_env []) w2).2 in
  tracked_processes w2 = {[ 100 := train_entry ]} ∧
  (100 ∉ pi_pid <$> snapshot (quiet_env [])) ∧
  tracked_processes w3 = ∅ ∧
  outbox w3 = [] ∧
  outbox (run state_path [quiet_env [train]; quiet_env [train]; quiet_env []]
            fs_ok (init ∅)).2 = [].
Proof.
  cbn zeta. split_and!.
  - vm_compute. reflexivity.
  - cbn. apply not_elem_of_nil.
  - vm_compute. reflexivity.
  - vm_compute. reflexivity.
  - vm_compute. reflexivity.
Qed.

(** C2, as stated, fails: the calls of a successful [save_state] are not
    an atomic replace, and a reader can find the file empty. *)
Lemma save_state_not_atomic :
  let w' := (save_state fs_ok state_path sample_world).2 in
  ¬ atomic_replace (fs_log w') state_path ∧
  ¬ no_partial_view (fs_log w') (disk sample_world) state_path.
Proof.
  cbn zeta. rewrite save_state_eq. split.
  - intros (pre & tmp & content & Hne & Hops & _).
    apply (f_equal last) in Hops.
    change [WriteFile tmp content; Rename tmp state_path]
      with ([WriteFile tmp content] ++ [Rename tmp state_path]) in Hops.
    rewrite (assoc_L (++)), last_snoc in Hops. vm_compute in Hops. discriminate.
  - intros Hviews. unfold no_partial_view in Hviews.
    apply Forall_lookup_1 with (i := 2%nat) (x := Some (Garbage "")) in Hviews;
      [|vm_compute; reflexivity].
    vm_compute in Hviews. by destruct Hviews.
Qed.

(** C2 (amended). A successful [save_state] creates the directory, opens
    the destination itself for writing, which empties it, and writes the
    serialized snapshot into it: there is no temporary file and no rename,
    and between the open and the write a reader finds an empty file. *)
Theorem save_state_writes_in_place (fsenv : fs_env) (path : string) (w : world) :
  makedirs_result fsenv = Ok tt →
  write_result fsenv = WriteCompletes →
  let doc := Document (serializable_state (tracked_processes w)) in
  let ops := [Makedirs (PyStr.dirname path); OpenTrunc path; WriteFile path doc] in
  save_state fsenv path w = (Ok tt, after_ops ops w) ∧
  fs_log (save_state fsenv path w).2 = fs_log w ++ ops ∧
  reader_views ops (disk w) path
  = [disk w !! path; disk w !! path; Some (Garbage ""); Some doc].
Proof.
  intros Hmk Hwr. cbn zeta. rewrite save_state_eq.
  unfold save_result, save_ops. rewrite Hmk, Hwr. split_and!; [done..|].
  cbn [reader_views fs_apply]. by rewrite !lookup_insert_eq.
Qed.

Lemma save_state_writes_in_place_witness :
  save_state fs_ok state_path sample_world
  = (Ok tt,
     after_ops [Makedirs "/var/lib/ml-monitor"; OpenTrunc state_path;
                WriteFile state_path
                  (Document (serializable_state (tracked_processes sample_world)))]
       sample_world).
Proof.
  apply (save_state_writes_in_place fs_ok state_path sample_world); reflexivity.
Defined.

(** The calls of a [save_state] never include a rename, whatever fails. *)
Lemma save_ops_no_rename fsenv path T :
  Forall (λ op, ∀ src dst, op ≠ Rename src dst) (save_ops fsenv path T).
Proof.
  unfold save_ops. destruct (makedirs_result fsenv), (write_result fsenv);
    repeat constructor; discriminate.
Qed.

(** C3. After a [save_state] that completes, [load_state] in a fresh
    daemon and [load_daemon_state] in the viewer both rebuild the tracked
    set that was saved, every field of every entry included. *)
Theorem save_load_roundtrip (fsenv : fs_env) (path : string) (w : world) :
  map_Forall (λ _ e, entry_valid e) (tracked_processes w) →
  makedirs_result fsenv = Ok tt →
  write_result fsenv = WriteCompletes →
  let d := disk (save_state fsenv path w).2 in
  load_state path (init d) = (Ok tt, set_tracked (λ _, tracked_processes w) (init d)) ∧
  tracked_processes (load_state path (init d)).2 = tracked_processes w ∧
  UI.load_daemon_state d path = Ok (tracked_processes w).
Proof.
  intros Hvalid Hmk Hwr. cbn zeta. rewrite save_state_eq.
  unfold save_ops. rewrite Hmk, Hwr.
  match goal with |- context [init ?x] => set (d := x) end.
  assert (d !! path = Some (Document (serializable_state (tracked_processes w)))) as Hd.
  { unfold d. cbn. apply lookup_insert_eq. }
  assert (load_state path (init d)
          = (Ok tt, set_tracked (λ _, tracked_processes w) (init d))) as Hload.
  { rewrite (load_state_saved path (tracked_processes w)) by done.
    unfold set_tracked, init. cbn. by rewrite insert_all_map_to_list. }
  split_and!; [done|by rewrite Hload|].
  by apply load_daemon_state_saved.
Qed.

Lemma save_load_roundtrip_witness :
  tracked_processes
    (load_state state_path
       (init (disk (save_state fs_ok state_path sample_world).2))).2
  = {[ 100 := train_entry ]}.
Proof.
  refine (proj1 (proj2 (save_load_roundtrip fs_ok state_path sample_world _ _ _))).
  - apply map_Forall_singleton. split; reflexivity.
  - reflexivity.
  - reflexivity.
Defined.

(** C4. As long as a pid stays in the tracked set from one iteration to
    the next, each iteration changes only [last_checked] and [gpu_info] of
    its entry: [cmdline], [start_time] and [username] are the ones it had
    at the start. *)
Theorem identity_continuity (path : string) (envs : list cycle_env) :
  ∀ (w : world) (pid : Z) (e : entry),
  tracked_processes w !! pid = Some e →
  Forall (λ w', is_Some (tracked_processes w' !! pid)) (worlds_after path envs w) →
  Forall (λ w', ∃ e', tracked_processes w' !! pid = Some e' ∧ same_identity e e')
         (worlds_after path envs w).
Proof.
  induction envs as [|env envs IH]; intros w pid e Hw Hall; [constructor|].
  cbn [worlds_after] in *.
  assert (∀ w', w' = (cycle path env w).2 →
                is_Some (tracked_processes w' !! pid) →
                ∃ e', tracked_processes w' !! pid = Some e' ∧ e' = refresh env pid e)
    as Hstep.
  { intros w' -> [e' He']. exists e'. split; [done|].
    rewrite tracked_after_cycle in He'. by eapply cycle_tracked_identity. }
  destruct (cycle path env w) as [[[]|err] w'] eqn:Hc.
  - apply Forall_cons in Hall as [Hhd Htl].
    destruct (Hstep w' eq_refl Hhd) as (e' & He' & ->).
    constructor; [by exists (refresh env pid e)|].
    eapply Forall_impl; [apply (IH w' pid _ He' Htl)|].
    intros w'' (e'' & He'' & Hid). exists e''. split; [done|].
    destruct Hid as (? & ? & ?). by split_and!.
  - apply Forall_cons in Hall as [Hhd _].
    destruct (Hstep w' eq_refl Hhd) as (e' & He' & ->).
    constructor; [by exists (refresh env pid e)|constructor].
Qed.

Lemma identity_continuity_witness :
  Forall (λ w', ∃ e', tracked_processes w' !! 100 = Some e' ∧ same_identity train_entry e')
    (worlds_after state_path [quiet_env [train]; quiet_env [train; worker];
                              quiet_env [orphan; train]]
       sample_world).
Proof.
  apply (identity_continuity state_path _ sample_world 100 train_entry).
  - reflexivity.
  - apply (bool_decide_unpack _). vm_compute. exact I.
Defined.



(** What is outside the [try] of [save_state] does stop the loop: an
    [os.makedirs] that raises ends [poll_loop]. *)
Lemma makedirs_failure_stops_loop path env envs w e :
  makedirs_result (cycle_fs env) = Raise e →
  (poll_loop path (env :: envs) w).1 = Raise e.
Proof.
  intros Hmk. unfold poll_loop. cbn [for_each]. msimpl. rewrite cycle_eq.
  unfold save_result. by rewrite Hmk.
Qed.

(** C6. A process that is not tracked yet and whose parent is named
    [python] or [python3] is not added, neither by [find_python_processes]
    nor to the tracked set of the iteration; a Python process other than
    the daemon whose parent cannot be looked up is added. *)
Theorem child_exclusion (path : string) (env : cycle_env) (w : world) (proc : proc_info) :
  proc ∈ snapshot env →
  NoDup (pi_pid <$> snapshot env) →
  tracked_processes w !! pi_pid proc = None →
  ∃ new,
    find_python_processes env w = (Ok new, w) ∧
    (parent_is_python (pi_parent proc) = true →
       new !! pi_pid proc = None ∧
       tracked_processes (cycle path env w).2 !! pi_pid proc = None) ∧
    (pi_parent proc = ParentGone ∨ pi_parent proc = ParentDenied →
       is_python (pi_name proc) = true →
       pi_pid proc ≠ getpid env →
       new !! pi_pid proc = Some (fresh_entry env proc)).
Proof.
  intros Hin Hnd HT. exists (found env (tracked_processes w)).
  split_and!; [apply find_python_processes_eq|..].
  - intros Hchild.
    assert (found env (tracked_processes w) !! pi_pid proc = None) as Hnone.
    { apply found_rejected; [done|]. intros p Hp Hpid.
      assert (p = proc) as ->.
      { apply list_elem_of_lookup in Hp as [i Hi], Hin as [j Hj].
        assert (i = j) as ->; [|congruence].
        eapply NoDup_lookup; [exact Hnd| |]; rewrite list_lookup_fmap.
        - by rewrite Hi.
        - rewrite Hj. cbn. by rewrite Hpid. }
      unfold accepted. rewrite Hchild. cbn. apply andb_false_r. }
    split; [done|]. by rewrite tracked_after_cycle, cycle_tracked_lookup, Hnone.
  - intros Hparent Hpy Hself. apply found_accepted; [done..|].
    unfold accepted. rewrite Hpy. apply Z.eqb_neq in Hself. rewrite Hself.
    by destruct Hparent as [-> | ->].
Qed.

Lemma child_exclusion_witness :
  tracked_processes
    (cycle state_path (quiet_env [train; worker; orphan]) (init ∅)).2 !! 200 = None.
Proof.
  destruct (child_exclusion state_path (quiet_env [train; worker; orphan]) (init ∅) worker)
    as (new & _ & Hchild & _).
  - apply list_elem_of_lookup. by exists 1%nat.
  - apply (bool_decide_unpack _). vm_compute. exact I.
  - reflexivity.
  - exact (proj2 (Hchild eq_refl)).
Defined.

Example orphan_is_tracked :
  tracked_processes
    (cycle state_path (quiet_env [train; worker; orphan]) (init ∅)).2 !! 300
  = Some (refresh (quiet_env [train; worker; orphan]) 300
            (fresh_entry (quiet_env [train; worker; orphan]) orphan)).
Proof. vm_compute. reflexivity. Qed.

(** The refresh of the viewer when [load_daemon_state] returns [{}]. *)
Lemma update_process_list_empty env v :
  UI.load_daemon_state (UI.ui_disk env) (UI.state_file v) = Ok ∅ →
  UI.update_process_list env v = (Ok tt, UI.set_tracked (λ _, ∅) v).
Proof.
  intros Hload. unfold UI.update_process_list. msimpl. rewrite Hload.
  cbn [UI.set_tracked UI.tracked_processes]. rewrite fmap_empty, map_to_list_empty.
  reflexivity.
Qed.

(** C7, as stated, fails: after a read that hits a deserialization error
    the viewer does not show what it showed before. *)
Lemma viewer_drops_entries_on_load_error :
  UI.load_body (UI.ui_disk torn_env) (UI.state_file sample_viewer) = Raise JSONDecodeError ∧
  UI.tracked_processes (UI.update_process_list torn_env sample_viewer).2
  ≠ UI.tracked_processes sample_viewer.
Proof.
  split; [reflexivity|]. intros Heq.
  apply (f_equal (λ m : gmap Z UI.ui_entry, m !! 100)) in Heq.
  vm_compute in Heq. discriminate.
Qed.

(** C7 (amended). When the [try] block of [load_daemon_state] raises, the
    refresh returns normally and the viewer shows no entry at all for that
    cycle. *)
Theorem viewer_load_error_shows_nothing (env : UI.ui_env) (v : UI.viewer) (e : exn) :
  path_exists (UI.ui_disk env) (UI.state_file v) = true →
  UI.load_body (UI.ui_disk env) (UI.state_file v) = Raise e →
  UI.load_daemon_state (UI.ui_disk env) (UI.state_file v) = Ok ∅ ∧
  UI.update_process_list env v = (Ok tt, UI.set_tracked (λ _, ∅) v) ∧
  UI.tracked_processes (UI.update_process_list env v).2 = ∅.
Proof.
  intros Hex Hraise.
  assert (UI.load_daemon_state (UI.ui_disk env) (UI.state_file v) = Ok ∅) as Hload.
  { unfold UI.load_daemon_state. by rewrite Hex, Hraise. }
  split; [done|]. by rewrite (update_process_list_empty env v Hload).
Qed.

Lemma viewer_load_error_shows_nothing_witness :
  UI.tracked_processes (UI.update_process_list torn_env sample_viewer).2 = ∅.
Proof.
  refine (proj2 (proj2 (viewer_load_error_shows_nothing torn_env sample_viewer
                          JSONDecodeError _ _))); reflexivity.
Defined.

(** C8. When the state file does not exist, [load_state] returns without
    raising and leaves the daemon as it was, so a daemon that starts has
    an empty tracked set; [load_daemon_state] of the viewer returns the
    empty mapping. *)
Theorem missing_state_file_loads_empty (d : gmap string file) (path : string) (w : world) :
  d !! path = None →
  disk w = d →
  load_state path w = (Ok tt, w) ∧
  load_state path (init d) = (Ok tt, init d) ∧
  tracked_processes (load_state path (init d)).2 = ∅ ∧
  UI.load_daemon_state d path = Ok ∅.
Proof.
  intros Hnone <-. split_and!.
  - by apply load_state_missing.
  - by apply load_state_missing.
  - by rewrite load_state_missing.
  - unfold UI.load_daemon_state, path_exists. by rewrite Hnone.
Qed.

Lemma missing_state_file_loads_empty_witness :
  load_state state_path (init ∅) = (Ok tt, init ∅) ∧
  UI.load_daemon_state ∅ state_path = Ok ∅.
Proof.
  destruct (missing_state_file_loads_empty ∅ state_path (init ∅))
    as (H1 & _ & _ & H4).
  - vm_compute. reflexivity.
  - reflexivity.
  - split; [exact H1|exact H4].
Defined.

(** ** The command line of a new entry *)

Lemma append_cons c s t : String c s +:+ t = String c (s +:+ t).
Proof. reflexivity. Qed.

Lemma append_nil_l t : EmptyString +:+ t = t.
Proof. reflexivity. Qed.

Lemma join_space_empty (l : list string) :
  PyStr.join " " l = EmptyString ↔ l = [] ∨ l = [EmptyString].
Proof.
  destruct l as [|a [|b l]].
  - cbn. split; [by left|done].
  - cbn. split; [intros ->; by right|]. by intros [[=]|[= ->]].
  - cbn [PyStr.join]. split; [|by intros [[=]|[=]]].
    destruct a; [rewrite append_nil_l|]; rewrite append_cons; discriminate.
Qed.

Lemma cmdline_of_empty (c : option (list string)) :
  cmdline_of c = EmptyString ↔ c = Some [EmptyString].
Proof.
  destruct c as [[|a l]|]; cbn [cmdline_of]; [split; discriminate| |split; discriminate].
  rewrite join_space_empty. split; [by intros [[=]| ->]|].
  intros [= -> ->]. by right.
Qed.

(** C9, as stated, fails: a process that reports the one-element command
    line [['']] is tracked with the empty string as [cmdline]. *)
Lemma tracked_cmdline_can_be_empty :
  ∃ e, tracked_processes (cycle state_path (quiet_env [blank]) (init ∅)).2 !! 400 = Some e ∧
       cmdline e = JStr "".
Proof. eexists. split; vm_compute; reflexivity. Qed.

(** C9 (amended). A new entry made from a snapshot that reports no
    command line, or an empty list, has [cmdline] equal to ["Unknown"];
    the [cmdline] of a new entry is the empty string exactly when the
    snapshot reports the list whose only element is the empty string. *)
Theorem new_entry_cmdline (env : cycle_env) (w : world) (proc : proc_info) :
  proc ∈ snapshot env →
  NoDup (pi_pid <$> snapshot env) →
  tracked_processes w !! pi_pid proc = None →
  accepted env proc = true →
  ∃ new e,
    find_python_processes env w = (Ok new, w) ∧
    new !! pi_pid proc = Some e ∧
    cmdline e = JStr (cmdline_of (pi_cmdline proc)) ∧
    (pi_cmdline proc = None ∨ pi_cmdline proc = Some [] → cmdline e = JStr "Unknown") ∧
    (cmdline e = JStr "" ↔ pi_cmdline proc = Some [""]).
Proof.
  intros Hin Hnd HT Hacc.
  exists (found env (tracked_processes w)), (fresh_entry env proc).
  split_and!.
  - apply find_python_processes_eq.
  - by apply found_accepted.
  - reflexivity.
  - cbn [fresh_entry cmdline]. by intros [-> | ->].
  - cbn [fresh_entry cmdline]. rewrite <-cmdline_of_empty. split; [|by intros ->].
    by intros [= ->].
Qed.

Lemma new_entry_cmdline_witness :
  ∃ new e,
    find_python_processes (quiet_env [train; orphan]) (init ∅) = (Ok new, init ∅) ∧
    new !! 300 = Some e ∧ cmdline e = JStr "Unknown".
Proof.
  destruct (new_entry_cmdline (quiet_env [train; orphan]) (init ∅) orphan)
    as (new & e & Hfind & Hnew & _ & Hunknown & _).
  - apply list_elem_of_lookup. by exists 1%nat.
  - apply (bool_decide_unpack _). vm_compute. exact I.
  - reflexivity.
  - reflexivity.
  - exists new, e. split_and!; [exact Hfind|exact Hnew|]. apply Hunknown. by left.
Defined.

(** C10. [send_notification] never raises; it returns [True] exactly when
    the request returned a response whose status code is 200, and [False]
    for every other status code and for every exception. *)
Theorem send_notification_success_iff (env : cycle_env) (title message : fstring)
    (w : world) :
  ∃ b,
    send_notification env title message w = (Ok b, record_call title message w) ∧
    (b = true ↔ ∃ r, http_post env title message = Ok r ∧ status_code r = 200) ∧
    (∀ r, http_post env title message = Ok r → status_code r ≠ 200 → b = false) ∧
    (∀ e, http_post env title message = Raise e → b = false).
Proof.
  eexists. split; [apply send_notification_eq|].
  destruct (http_post env title message) as [r|e].
  - split_and!.
    + rewrite Z.eqb_eq. split; [by exists r|]. by intros (? & [= <-] & ?).
    + intros ? [= <-] Hne. by apply Z.eqb_neq.
    + intros ? [=].
  - split_and!; [|done..]. split; [done|]. by intros (? & [=] & _).
Qed.

Example created_is_not_success (env : cycle_env) (title message : fstring) (w : world) :
  http_post env title message = Ok {| status_code := 201; text := "" |} →
  (send_notification env title message w).1 = Ok false.
Proof. intros H. rewrite send_notification_eq. by rewrite H. Qed.

(** * Further properties of the daemon *)

(** ** [find_python_processes] *)

Lemma find_step_own env T proc :
  find_step env T ∅ proc !! pi_pid proc
  = if is_python (pi_name proc) then
      match T !! pi_pid proc with
      | Some e => Some e
      | None => if accepted env proc then Some (fresh_entry env proc) else None
      end
    else None.
Proof.
  unfold find_step, accepted. destruct (is_python _); [|apply lookup_empty].
  destruct (T !! pi_pid proc); [apply lookup_insert_eq|].
  destruct (pi_pid proc =? getpid env); [apply lookup_empty|].
  destruct (parent_is_python _); [apply lookup_empty|apply lookup_insert_eq].
Qed.

Lemma find_step_lookup_irrelevant env T new new' proc pid :
  new !! pid = new' !! pid →
  find_step env T new proc !! pid = find_step env T new' proc !! pid.
Proof.
  intros Heq. destruct (decide (pi_pid proc = pid)) as [<-|Hne].
  - unfold find_step. repeat case_match; try done; by rewrite !lookup_insert_eq.
  - by rewrite !find_step_other.
Qed.

Lemma foldl_find_step_at env T (l : list proc_info) : ∀ new proc,
  proc ∈ l →
  NoDup (pi_pid <$> l) →
  new !! pi_pid proc = None →
  foldl (find_step env T) new l !! pi_pid proc = find_step env T ∅ proc !! pi_pid proc.
Proof.
  induction l as [|p l IH]; intros new proc Hin Hnd Hnew; [by apply elem_of_nil in Hin|].
  rewrite fmap_cons in Hnd. apply NoDup_cons in Hnd as [Hnotin Hnd].
  cbn [foldl]. apply elem_of_cons in Hin as [<-|Hin].
  - rewrite foldl_find_step_other by done.
    apply find_step_lookup_irrelevant. by rewrite lookup_empty.
  - apply IH; [done..|]. rewrite find_step_other; [done|].
    intros Heq. apply Hnotin. rewrite Heq. apply list_elem_of_fmap. by exists proc.
Qed.

(** X1. The complete reading of [find_python_processes] on a snapshot
    without repeated pids: it never raises and changes nothing; a process
    not named [python] or [python3] has no entry in the result, even when
    its pid was tracked; a Python process that is already tracked keeps
    the very entry it had, whatever its parent and even when it is the
    daemon; an untracked one gets a fresh entry exactly when it is
    accepted; and no pid outside the snapshot is in the result. *)
Theorem find_python_processes_lookup (env : cycle_env) (w : world) (proc : proc_info) :
  proc ∈ snapshot env →
  NoDup (pi_pid <$> snapshot env) →
  ∃ new,
    find_python_processes env w = (Ok new, w) ∧
    new !! pi_pid proc
    = (if is_python (pi_name proc) then
         match tracked_processes w !! pi_pid proc with
         | Some e => Some e
         | None => if accepted env proc then Some (fresh_entry env proc) else None
         end
       else None) ∧
    ∀ pid, pid ∉ pi_pid <$> snapshot env → new !! pid = None.
Proof.
  intros Hin Hnd. exists (found env (tracked_processes w)).
  split_and!; [apply find_python_processes_eq| |intros pid; apply found_in_snapshot].
  unfold found. rewrite foldl_find_step_at by (done || apply lookup_empty).
  apply find_step_own.
Qed.

Lemma find_python_processes_lookup_witness :
  ∃ new,
    find_python_processes (quiet_env [train; worker; orphan]) sample_world
    = (Ok new, sample_world) ∧
    new !! 100 = Some train_entry.
Proof.
  destruct (find_python_processes_lookup (quiet_env [train; worker; orphan])
              sample_world train) as (new & Hrun & Hnew & _).
  - apply list_elem_of_lookup. by exists 0%nat.
  - apply (bool_decide_unpack _). vm_compute. exact I.
  - exists new. split; [exact Hrun|].
    change (new !! pi_pid train = Some train_entry). rewrite Hnew. reflexivity.
Defined.

(** Whatever is found comes from a Python process of the snapshot. *)
Lemma found_from_snapshot env T pid e :
  found env T !! pid = Some e →
  ∃ proc, proc ∈ snapshot env ∧ pi_pid proc = pid ∧ is_python (pi_name proc) = true.
Proof.
  unfold found.
  assert (∀ (l : list proc_info) new,
            foldl (find_step env T) new l !! pid = Some e →
            is_Some (new !! pid) ∨
            ∃ proc, proc ∈ l ∧ pi_pid proc = pid ∧ is_python (pi_name proc) = true)
    as Hgen.
  { induction l as [|p l IH]; intros new Hl; [left; by eexists|].
    cbn [foldl] in Hl. destruct (IH _ Hl) as [[e' He']|(proc & Hp & ? & ?)].
    - destruct (decide (pi_pid p = pid)) as [Heq|Hne].
      + destruct (is_python (pi_name p)) eqn:Hpy.
        * right. exists p. split_and!; [by left|done..].
        * left. unfold find_step in He'. rewrite Hpy in He'. by eexists.
      + rewrite find_step_other in He' by done. left. by eexists.
    - right. exists proc. split_and!; [by right|done..]. }
  intros Hfound. destruct (Hgen _ _ Hfound) as [[? Hempty]|?]; [|done].
  by rewrite lookup_empty in Hempty.
Qed.

(** X2. Every entry of the tracked set at the end of an iteration belongs
    to a process that the snapshot of that iteration lists under the name
    [python] or [python3] and that still existed at the check. *)
Theorem tracked_after_cycle_is_live (path : string) (env : cycle_env) (w : world)
    (pid : Z) (e : entry) :
  tracked_processes (cycle path env w).2 !! pid = Some e →
  process_exists env pid = true ∧
  ∃ proc, proc ∈ snapshot env ∧ pi_pid proc = pid ∧ is_python (pi_name proc) = true.
Proof.
  rewrite tracked_after_cycle, cycle_tracked_lookup.
  destruct (found env (tracked_processes w) !! pid) as [e0|] eqn:Hfound; [|done].
  cbn. unfold check_entry. destruct (process_exists env pid); [|done].
  intros _. split; [done|]. by eapply found_from_snapshot.
Qed.

Lemma tracked_after_cycle_is_live_witness :
  process_exists (quiet_env [train; worker]) 100 = true ∧
  ∃ proc, proc ∈ snapshot (quiet_env [train; worker]) ∧ pi_pid proc = 100 ∧
          is_python (pi_name proc) = true.
Proof.
  apply (tracked_after_cycle_is_live state_path (quiet_env [train; worker]) (init ∅)
           100 train_entry).
  vm_compute. reflexivity.
Defined.

(** ** [check_process_status] *)



(** ** Loading any state file *)

Lemma make_valid y m d hh mi ss us dt :
  DateTime.make y m d hh mi ss us = Some dt → DateTime.valid dt = true.
Proof.
  unfold DateTime.make. destruct (DateTime.valid _) eqn:Hv; [|done]. by intros [= <-].
Qed.

(** [fromisoformat] returns only datetimes in range. *)
Lemma fromisoformat_valid s dt :
  DateTime.fromisoformat s = Some dt → DateTime.valid dt = true.
Proof.
  unfold DateTime.fromisoformat. intros H.
  repeat (simplify_option_eq || case_match); by eapply make_valid.
Qed.

Lemma fromisoformat_json_valid v dt :
  fromisoformat_json v = Ok dt → DateTime.valid dt = true.
Proof.
  unfold fromisoformat_json. destruct v; try done.
  destruct (DateTime.fromisoformat s) eqn:Hs; [|done].
  intros [= <-]. by eapply fromisoformat_valid.
Qed.

Lemma entry_of_json_valid info e : entry_of_json info = Ok e → entry_valid e.
Proof.
  unfold entry_of_json. msimpl.
  repeat case_match; try done. intros [= <-].
  split; cbn; by eapply fromisoformat_json_valid.
Qed.

Lemma parse_items_valid (items : list (string * json)) :
  Forall (λ p, entry_valid p.2) (parse_items items).1.
Proof.
  induction items as [|item items IH]; [constructor|].
  cbn [parse_items]. destruct (parse_item item) as [[pid e]|err] eqn:Hitem; [|constructor].
  destruct (parse_items items) as [l err]. cbn in *. constructor; [|done].
  unfold parse_item in Hitem. msimpl.
  destruct (int_of item.1); [|done]. destruct (entry_of_json item.2) eqn:He; [|done].
  injection Hitem as <- <-. by eapply entry_of_json_valid.
Qed.

(** The loop of [load_state] on any items. *)
Lemma load_loop_any (items : list (string * json)) : ∀ w,
  for_each items
    (λ '(pid_str, info),
       pid ← lift (int_of pid_str);
       e ← lift (entry_of_json info);
       modify (set_tracked <[pid := e]>)) w
  = (match (parse_items items).2 with
     | None => Ok tt
     | Some err => Raise err
     end, set_tracked (insert_all (parse_items items).1) w).
Proof.
  induction items as [|[pid_str info] items IH]; intros w.
  - cbn. by destruct w.
  - cbn [for_each parse_items]. unfold parse_item. msimpl. cbn [fst snd].
    destruct (int_of pid_str) as [pid|err]; [|by destruct w].
    destruct (entry_of_json info) as [e|err]; [|by destruct w].
    rewrite IH. by destruct (parse_items items).
Qed.

(** The loop of [load_daemon_state] on any items. *)
Lemma load_items_any (items : list (string * json)) : ∀ state,
  UI.load_items items state
  = match (parse_items items).2 with
    | None => Ok (insert_all (parse_items items).1 state)
    | Some err => Raise err
    end.
Proof.
  induction items as [|[pid_str info] items IH]; intros state; [done|].
  cbn [UI.load_items parse_items]. unfold parse_item. msimpl. cbn [fst snd].
  destruct (int_of pid_str) as [pid|err]; [|done].
  destruct (entry_of_json info) as [e|err]; [|done].
  rewrite IH. by destruct (parse_items items) as [l [err|]].
Qed.

(** What [load_state] stores, for any disk. *)
Lemma load_state_any path w :
  ∃ l, load_state path w = (Ok tt, set_tracked (insert_all l) w) ∧
       Forall (λ p, entry_valid p.2) l ∧
       (∀ items, disk w !! path = Some (Document (JObj items)) →
                 l = (parse_items items).1).
Proof.
  unfold load_state, path_exists. msimpl.
  destruct (disk w !! path) as [f|] eqn:Hf; cbn [negb].
  - destruct f as [|raw|v]; cbn [read_json].
    1,2: exists []; split_and!; [by destruct w|constructor|done].
    destruct v; cbn [items_of];
      try (exists []; split_and!; [by destruct w|constructor|done]).
    rewrite load_loop_any. exists (parse_items items).1.
    split_and!; [by destruct (parse_items items).2|apply parse_items_valid|].
    by intros ? [= <-].
  - exists []. split_and!; [by destruct w|constructor|done].
Qed.

(** X4. [load_state] never raises, whatever is at the path: no file, a
    file that cannot be opened, text that is not JSON, or a document of
    any shape. It changes only [tracked_processes], and only by storing
    entries, each with datetimes in range; no file is touched and no
    notification is sent. *)
Theorem load_state_never_raises (path : string) (w : world) :
  ∃ l : list (Z * entry),
    load_state path w = (Ok tt, set_tracked (insert_all l) w) ∧
    Forall (λ p, entry_valid p.2) l.
Proof.
  destruct (load_state_any path w) as (l & Hl & Hv & _). by exists l.
Qed.



(** X6. Whenever the viewer reads a state file without an exception, a
    daemon that starts on the same file reads the same tracked set. *)
Theorem loaders_agree (d : gmap string file) (path : string) (T : gmap Z entry) :
  UI.load_body d path = Ok T →
  load_state path (init d) = (Ok tt, set_tracked (λ _, T) (init d)) ∧
  UI.load_daemon_state d path = Ok T.
Proof.
  intros Hbody.
  assert (∃ items, d !! path = Some (Document (JObj items))) as [items Hd].
  { unfold UI.load_body in Hbody. destruct (d !! path) as [[|raw|[]]|]; try done.
    by eexists. }
  unfold UI.load_body in Hbody. rewrite Hd in Hbody.
  unfold mbind, result_bind in Hbody. cbn [read_json items_of] in Hbody.
  rewrite load_items_any in Hbody.
  split.
  - destruct (load_state_any path (init d)) as (l & Hl & _ & Hitems).
    rewrite Hl, (Hitems _ Hd). destruct (parse_items items) as [l' [err|]]; [done|].
    injection Hbody as <-. reflexivity.
  - unfold UI.load_daemon_state, path_exists, UI.load_body. rewrite Hd. msimpl.
    cbn [negb read_json items_of]. rewrite load_items_any.
    by destruct (parse_items items) as [l' [err|]].
Qed.

Lemma loaders_agree_witness :
  load_state state_path (init (disk (save_state fs_ok state_path sample_world).2))
  = (Ok tt, set_tracked (λ _, {[ 100 := train_entry ]})
              (init (disk (save_state fs_ok state_path sample_world).2))).
Proof.
  refine (proj1 (loaders_agree _ state_path {[ 100 := train_entry ]} _)).
  vm_compute. reflexivity.
Defined.

(** ** The state file as a document *)

(** X7. [entry_of_json] reads the five keys [cmdline], [start_time],
    [username], [last_checked] and [gpu_info] and nothing else: two
    objects that agree on these keys give the same entry or the same
    exception, so fields added to the state file are ignored. *)
Theorem entry_of_json_reads_five_keys (kv kv' : list (string * json)) :
  (∀ k, k ∈ entry_keys → assoc k kv' = assoc k kv) →
  entry_of_json (JObj kv') = entry_of_json (JObj kv).
Proof.
  intros Hagree. unfold entry_of_json, getitem.
  rewrite !Hagree; [done|unfold entry_keys; set_solver..].
Qed.

Lemma entry_of_json_reads_five_keys_witness :
  entry_of_json (JObj [("schema", JInt 2); ("cmdline", JStr "python train.py");
                       ("start_time", JStr "2024-01-15T10:30:00");
                       ("username", JStr "al"); ("host", JStr "gpu-7");
                       ("last_checked", JStr "2024-01-15T10:30:05.250000");
                       ("gpu_info", JNull)])
  = Ok train_entry.
Proof.
  rewrite (entry_of_json_reads_five_keys
             [("cmdline", JStr "python train.py");
              ("start_time", JStr "2024-01-15T10:30:00");
              ("username", JStr "al");
              ("last_checked", JStr "2024-01-15T10:30:05.250000");
              ("gpu_info", JNull)]).
  - reflexivity.
  - intros k Hk. unfold entry_keys in Hk.
    repeat (apply elem_of_cons in Hk as [->|Hk]; [reflexivity|]).
    by apply elem_of_nil in Hk.
Defined.

Lemma str_of_Z_inj (a b : Z) : PyStr.str_of_Z a = PyStr.str_of_Z b → a = b.
Proof.
  intros H. apply (f_equal PyStr.int_of_str) in H.
  rewrite !int_of_str_of_Z in H. by injection H.
Qed.

Lemma assoc_serialized (l : list (Z * entry)) (pid : Z) :
  NoDup l.*1 →
  assoc (PyStr.str_of_Z pid)
    ((λ '(p, info), (PyStr.str_of_Z p, serialize_entry info)) <$> l)
  = serialize_entry <$> (list_to_map l : gmap Z entry) !! pid.
Proof.
  induction l as [|[p info] l IH]; intros Hnd; [cbn; by rewrite lookup_empty|].
  rewrite fmap_cons in Hnd. apply NoDup_cons in Hnd as [Hnotin Hnd].
  rewrite fmap_cons. cbn [assoc list_to_map foldr fst snd uncurry].
  destruct (String.eqb_spec (PyStr.str_of_Z pid) (PyStr.str_of_Z p)) as [Heq|Hne].
  - apply str_of_Z_inj in Heq as ->. by rewrite lookup_insert_eq.
  - rewrite lookup_insert_ne by congruence. by apply IH.
Qed.

(** X8. The document that [save_state] writes has one item for each
    tracked pid and no other: its keys are pairwise distinct, and under
    the key [str(pid)] it holds the serialized entry of [pid]. *)
Theorem serializable_state_items (T : gmap Z entry) :
  ∃ kv,
    serializable_state T = JObj kv ∧
    NoDup kv.*1 ∧
    length kv = size T ∧
    ∀ pid, assoc (PyStr.str_of_Z pid) kv = serialize_entry <$> T !! pid.
Proof.
  eexists. split; [reflexivity|]. split_and!.
  - assert (((λ '(pid, info), (PyStr.str_of_Z pid, serialize_entry info))
               <$> map_to_list T).*1
            = PyStr.str_of_Z <$> (map_to_list T).*1) as ->.
    { rewrite <-!list_fmap_compose. apply list_fmap_ext. by intros ? [??]. }
    apply NoDup_fmap_2; [|apply NoDup_fst_map_to_list].
    intros a b. apply str_of_Z_inj.
  - by rewrite length_fmap, length_map_to_list.
  - intros pid. rewrite assoc_serialized by apply NoDup_fst_map_to_list.
    by rewrite list_to_map_to_list.
Qed.

(** ** Saving what was loaded, and failed writes *)

Lemma insert_all_valid (l : list (Z * entry)) : ∀ T : gmap Z entry,
  Forall (λ p, entry_valid p.2) l →
  map_Forall (λ _ e, entry_valid e) T →
  map_Forall (λ _ e, entry_valid e) (insert_all l T).
Proof.
  induction l as [|[pid e] l IH]; intros T Hl HT; [done|].
  apply Forall_cons in Hl as [He Hl]. cbn [insert_all foldl].
  apply IH; [done|]. by apply map_Forall_insert_2.
Qed.

(** Loading the file that a completed [save_state] wrote. *)
Lemma load_after_save fsenv path w :
  map_Forall (λ _ e, entry_valid e) (tracked_processes w) →
  makedirs_result fsenv = Ok tt →
  write_result fsenv = WriteCompletes →
  load_state path (init (disk (save_state fsenv path w).2))
  = (Ok tt, set_tracked (λ _, tracked_processes w)
              (init (disk (save_state fsenv path w).2))).
Proof.
  intros Hvalid Hmk Hwr. rewrite save_state_eq. unfold save_ops. rewrite Hmk, Hwr.
  match goal with |- context [init ?x] => set (d := x) end.
  rewrite (load_state_saved path (tracked_processes w)); [|by apply lookup_insert_eq|done].
  unfold set_tracked, init. cbn. by rewrite insert_all_map_to_list.
Qed.

(** X9. Whatever state file a daemon starts from, what it has loaded
    survives a save and a restart unchanged: loading, saving and loading
    again gives the tracked set of the first load. *)
Theorem reload_is_stable (d : gmap string file) (path : string) (fsenv : fs_env) :
  makedirs_result fsenv = Ok tt →
  write_result fsenv = WriteCompletes →
  let w := (load_state path (init d)).2 in
  let d' := disk (save_state fsenv path w).2 in
  tracked_processes (load_state path (init d')).2 = tracked_processes w.
Proof.
  intros Hmk Hwr. cbn zeta.
  destruct (load_state_any path (init d)) as (l & Hl & Hv & _). rewrite Hl. cbn [snd].
  rewrite load_after_save; [done| |done..].
  cbn. by apply insert_all_valid.
Qed.

Lemma reload_is_stable_witness :
  let d : gmap string file :=
    {[ state_path := Document (JObj [(" +1_00 ", serialize_entry train_entry);
                                     ("7", JNull)]) ]} in
  let w := (load_state state_path (init d)).2 in
  tracked_processes w = {[ 100 := train_entry ]} ∧
  tracked_processes
    (load_state state_path (init (disk (save_state fs_ok state_path w).2))).2
  = tracked_processes w.
Proof.
  cbn zeta. split; [vm_compute; reflexivity|].
  apply (reload_is_stable _ state_path fs_ok); reflexivity.
Defined.

(** X10. When the state file cannot be opened for writing, [save_state]
    returns normally and no file changes: what the file held before is
    still there for the next reader. *)
Theorem failed_open_keeps_old_file (fsenv : fs_env) (path : string) (w : world) (e : exn) :
  makedirs_result fsenv = Ok tt →
  write_result fsenv = OpenRaises e →
  (save_state fsenv path w).1 = Ok tt ∧
  disk (save_state fsenv path w).2 = disk w ∧
  tracked_processes (save_state fsenv path w).2 = tracked_processes w.
Proof.
  intros Hmk Hwr. rewrite save_state_eq. unfold save_result, save_ops.
  by rewrite Hmk, Hwr.
Qed.

Lemma failed_open_keeps_old_file_witness :
  disk (save_state (cycle_fs (failing_env [])) state_path sample_world).2
  = disk sample_world.
Proof.
  refine (proj1 (proj2 (failed_open_keeps_old_file _ state_path sample_world OSError _ _)));
    reflexivity.
Defined.

(** X11. When [json.dump] raises after the file was opened, [save_state]
    still returns normally, but the state that the file held before is
    lost: the file is left with the part that was written, the viewer
    reads an empty mapping from it and a daemon that restarts on it tracks
    nothing. *)
Theorem failed_dump_loses_old_file (fsenv : fs_env) (path : string) (w : world)
    (e : exn) (partial : string) :
  makedirs_result fsenv = Ok tt →
  write_result fsenv = DumpRaises e partial →
  let d' := disk (save_state fsenv path w).2 in
  (save_state fsenv path w).1 = Ok tt ∧
  d' !! path = Some (Garbage partial) ∧
  UI.load_daemon_state d' path = Ok ∅ ∧
  load_state path (init d') = (Ok tt, init d').
Proof.
  intros Hmk Hwr. cbn zeta. rewrite save_state_eq. unfold save_result, save_ops.
  rewrite Hmk, Hwr. cbn [fst snd after_ops disk foldl flip fs_apply].
  assert (<[path:=Garbage partial]> (<[path:=Garbage ""]> (disk w)) !! path
          = Some (Garbage partial)) as Hd by apply lookup_insert_eq.
  split_and!; [done|done|..].
  - unfold UI.load_daemon_state, UI.load_body, path_exists. by rewrite Hd.
  - unfold load_state, path_exists. msimpl. cbn [init disk]. by rewrite Hd.
Qed.

Lemma failed_dump_loses_old_file_witness :
  let fsenv := {| makedirs_result := Ok tt;
                  write_result := DumpRaises OSError "{" |} in
  path_exists (disk sample_world) state_path = true ∧
  UI.load_daemon_state (disk (save_state fsenv state_path sample_world).2) state_path
  = Ok ∅.
Proof.
  cbn zeta. split; [reflexivity|].
  refine (proj1 (proj2 (proj2 (failed_dump_loses_old_file _ state_path sample_world
                                 OSError "{" _ _)))); reflexivity.
Defined.

(** ** [run] *)

Lemma try_except_pass {S A} (m : M S A) (a : A) (s : S) :
  ∃ s', try_except m (λ _, mret a) s = (Ok (match (m s).1 with Ok x => x | Raise _ => a end), s')
        ∧ s' = (m s).2.
Proof. unfold try_except. destruct (m s) as [[x|e] s']; by eexists. Qed.

(** X12. [run] always ends with a [save_state]: whether the loop ran to
    the stop or was cut short by an exception, the last file-system calls
    are those of a save of the final tracked set, and [run] raises only
    if the [os.makedirs] of that last save raises. When the last save
    completes, the state file holds the final tracked set. *)
Theorem run_ends_with_save (path : string) (envs : list cycle_env) (final_fs : fs_env)
    (w : world) :
  let r := run path envs final_fs w in
  r.1 = save_result final_fs ∧
  (∃ pre, fs_log r.2 = pre ++ save_ops final_fs path (tracked_processes r.2)) ∧
  match makedirs_result final_fs, write_result final_fs with
  | Ok _, WriteCompletes =>
      disk r.2 !! path = Some (Document (serializable_state (tracked_processes r.2)))
  | _, _ => True
  end.
Proof.
  cbn zeta. unfold run, mbind, M_bind. cbn beta iota.
  destruct (load_state_any path w) as (l & -> & _ & _).
  unfold try_finally.
  destruct (try_except_pass (poll_loop path envs) tt (set_tracked (insert_all l) w))
    as (w2 & -> & _).
  assert ((match (poll_loop path envs (set_tracked (insert_all l) w)).1 with
           | Ok x => x | Raise _ => tt end) = tt) as -> by by destruct (_ : unit).
  rewrite save_state_eq. unfold save_result.
  destruct (makedirs_result final_fs) as [[]|e] eqn:Hmk; cbn [fst snd].
  - split_and!; [done|by eexists|].
    destruct (write_result final_fs) eqn:Hwr; [|done..].
    unfold save_ops. rewrite Hmk, Hwr. cbn. apply lookup_insert_eq.
  - split_and!; [done|by eexists|done].
Qed.

(** ** Restarting the daemon *)

Lemma found_valid env T :
  env_valid env →
  map_Forall (λ _ e, entry_valid e) T →
  map_Forall (λ _ e, entry_valid e) (found env T).
Proof.
  intros (Hct & Hnf & _) HT. unfold found.
  assert (map_Forall (λ _ e, entry_valid e) (∅ : gmap Z entry)) as Hinit
    by apply map_Forall_empty.
  revert Hinit. generalize (∅ : gmap Z entry).
  induction (snapshot env) as [|proc l IH]; intros new Hnew; [done|].
  cbn [foldl]. apply IH; [intros p Hp; apply Hct; by right|].
  unfold find_step. repeat case_match; try done.
  - apply map_Forall_insert_2; [|done]. by eapply HT.
  - apply map_Forall_insert_2; [|done]. split; cbn; [apply Hct; by left|apply Hnf].
Qed.

Lemma cycle_tracked_valid env T :
  env_valid env →
  map_Forall (λ _ e, entry_valid e) T →
  map_Forall (λ _ e, entry_valid e) (cycle_tracked env T).
Proof.
  intros Henv HT pid e. rewrite cycle_tracked_lookup.
  destruct (found env T !! pid) as [e0|] eqn:Hfound; [|done].
  cbn. unfold check_entry. destruct (process_exists env pid); [|done].
  intros [= <-]. pose proof (found_valid env T Henv HT pid e0 Hfound) as [Hst _].
  split; cbn; [done|]. apply Henv.
Qed.

Lemma poll_loop_valid path (envs : list cycle_env) : ∀ w,
  Forall env_valid envs →
  map_Forall (λ _ e, entry_valid e) (tracked_processes w) →
  map_Forall (λ _ e, entry_valid e) (tracked_processes (poll_loop path envs w).2).
Proof.
  induction envs as [|env envs IH]; intros w Henvs Hw; [done|].
  apply Forall_cons in Henvs as [Henv Henvs].
  unfold poll_loop in *. cbn [for_each]. msimpl.
  pose proof (tracked_after_cycle path env w) as Htr.
  destruct (cycle path env w) as [[[]|err] w'] eqn:Hc; cbn [snd] in Htr.
  - apply IH; [done|]. rewrite Htr. by apply cycle_tracked_valid.
  - cbn. rewrite Htr. by apply cycle_tracked_valid.
Qed.

(** X13. Restart continuity: when a [run] whose last save completes is
    followed by a new daemon on the same file, the new daemon starts with
    exactly the tracked set that the old one ended with, every field of
    every entry included. *)
Theorem restart_continuity (path : string) (envs : list cycle_env) (final_fs : fs_env)
    (d : gmap string file) :
  Forall env_valid envs →
  makedirs_result final_fs = Ok tt →
  write_result final_fs = WriteCompletes →
  let old := (run path envs final_fs (init d)).2 in
  load_state path (init (disk old))
  = (Ok tt, set_tracked (λ _, tracked_processes old) (init (disk old))).
Proof.
  intros Henvs Hmk Hwr. cbn zeta. unfold run, mbind, M_bind. cbn beta iota.
  destruct (load_state_any path (init d)) as (l & -> & Hl & _).
  unfold try_finally.
  destruct (try_except_pass (poll_loop path envs) tt (set_tracked (insert_all l) (init d)))
    as (w2 & -> & ->).
  set (w2 := (poll_loop path envs (set_tracked (insert_all l) (init d))).2).
  assert (map_Forall (λ _ e, entry_valid e) (tracked_processes w2)) as Hvalid.
  { apply poll_loop_valid; [done|]. cbn. apply insert_all_valid; [done|].
    apply map_Forall_empty. }
  pose proof (load_after_save final_fs path w2 Hvalid Hmk Hwr) as Hload.
  rewrite save_state_eq in Hload |- *. unfold save_result. rewrite Hmk.
  cbn [fst snd] in Hload |- *. exact Hload.
Qed.

Lemma restart_continuity_witness :
  let envs := [quiet_env [train]; quiet_env [train; orphan; worker]] in
  let old := (run state_path envs fs_ok (init ∅)).2 in
  Forall env_valid envs ∧
  dom (tracked_processes old) = {[ 100; 300 ]} ∧
  load_state state_path (init (disk old))
  = (Ok tt, set_tracked (λ _, tracked_processes old) (init (disk old))).
Proof.
  intros envs old.
  assert (Forall env_valid envs) as Henvs.
  { repeat constructor; cbn; try reflexivity;
      intros proc Hproc;
      repeat (apply elem_of_cons in Hproc as [->|Hproc]; [reflexivity|]);
      by apply elem_of_nil in Hproc. }
  split; [exact Henvs|]. split; [vm_compute; reflexivity|].
  exact (restart_continuity state_path envs fs_ok ∅ Henvs eq_refl eq_refl).
Defined.

(** * Further properties of the viewer *)

(** ** [get_process_stats] and [update_process_list] *)

Lemma gpu_lines_keeps pid (lines : list string) : ∀ s s0,
  UI.running s = UI.running s0 →
  UI.status s = UI.status s0 →
  UI.cpu_percent s = UI.cpu_percent s0 →
  UI.memory_percent s = UI.memory_percent s0 →
  UI.running (UI.gpu_lines pid lines s) = UI.running s0 ∧
  UI.status (UI.gpu_lines pid lines s) = UI.status s0 ∧
  UI.cpu_percent (UI.gpu_lines pid lines s) = UI.cpu_percent s0 ∧
  UI.memory_percent (UI.gpu_lines pid lines s) = UI.memory_percent s0.
Proof.
  induction lines as [|line lines IH]; intros s s0 H1 H2 H3 H4; [done|].
  cbn [UI.gpu_lines]. repeat case_match; by apply IH.
Qed.

Lemma get_process_stats_cases_aux (env : UI.ui_env) (pid : Z) :
  match UI.proc_live env pid with
  | Ok live => ∃ st, UI.get_process_stats env pid = Ok st ∧ UI.running st = true
  | Raise e =>
      if is_no_such_process e
      then ∃ st, UI.get_process_stats env pid = Ok st ∧ UI.running st = false
      else UI.get_process_stats env pid = Raise e
  end.
Proof.
  unfold UI.get_process_stats. destruct (UI.proc_live env pid) as [live|e]; msimpl.
  - destruct (UI.ui_smi env pid) as [res|e]; [|by eexists].
    destruct (returncode res =? 0); [|by eexists].
    eexists. split; [reflexivity|].
    match goal with
    | |- context [UI.gpu_lines _ _ ?s] =>
        exact (proj1 (gpu_lines_keeps pid _ s s eq_refl eq_refl eq_refl eq_refl))
    end.
  - destruct (is_no_such_process e); [by eexists|done].
Qed.

(** X14. [get_process_stats]: for a process that can be queried the
    stats say [running] with the status and the percentages of the
    process, whatever [nvidia-smi] prints and even when it cannot be run;
    for a process that no longer exists the stats are
    [{'running': False, 'status': 'terminated'}]; any other exception of
    the query ([AccessDenied], for one) is not caught and is raised to
    the caller. *)
Theorem get_process_stats_cases (env : UI.ui_env) (pid : Z) :
  match UI.proc_live env pid with
  | Ok live =>
      ∃ st, UI.get_process_stats env pid = Ok st ∧
            UI.running st = true ∧
            UI.status st = UI.live_status live ∧
            UI.cpu_percent st = Some (UI.live_cpu_percent live) ∧
            UI.memory_percent st = Some (UI.live_memory_percent live)
  | Raise e =>
      if is_no_such_process e
      then UI.get_process_stats env pid
           = Ok {| UI.running := false; UI.status := "terminated";
                   UI.cpu_percent := None; UI.memory_percent := None;
                   UI.gpu_memory := None; UI.gpu_util := None |}
      else UI.get_process_stats env pid = Raise e
  end.
Proof.
  unfold UI.get_process_stats. destruct (UI.proc_live env pid) as [live|e]; msimpl.
  - destruct (UI.ui_smi env pid) as [res|e]; [|by eexists].
    destruct (returncode res =? 0); [|by eexists].
    eexists. split; [reflexivity|].
    match goal with
    | |- context [UI.gpu_lines _ _ ?s] =>
        exact (gpu_lines_keeps pid _ s s eq_refl eq_refl eq_refl eq_refl)
    end.
  - by destruct (is_no_such_process e).
Qed.

(** The loop of [update_process_list] over the entries [l] of the loaded
    state, when the stats of each can be read. *)
Lemma refresh_loop env (st : Z → UI.proc_stats) (l : list (Z * UI.ui_entry)) : ∀ v,
  NoDup l.*1 →
  (∀ pid, pid ∈ l.*1 → UI.get_process_stats env pid = Ok (st pid)) →
  ∃ v',
    for_each l.*1
      (λ pid,
         st ← lift (UI.get_process_stats env pid);
         modify (UI.set_tracked
                   (alter (λ e, {| UI.info := UI.info e; UI.stats := Some st |}) pid));;
         show ← gets UI.show_all;
         if negb (UI.running st) && negb show
         then modify (UI.set_tracked (delete pid))
         else mret tt) v = (Ok tt, v') ∧
    UI.state_file v' = UI.state_file v ∧
    UI.show_all v' = UI.show_all v ∧
    ∀ pid, UI.tracked_processes v' !! pid
           = if decide (pid ∈ l.*1)
             then UI.tracked_processes v !! pid
                  ≫= λ e, shown_entry (UI.show_all v) (st pid) (UI.info e)
             else UI.tracked_processes v !! pid.
Proof.
  induction l as [|[pid e] l IH]; intros v Hnd Hst.
  - exists v. split_and!; done.
  - rewrite fmap_cons in Hnd, Hst |- *. cbn [fst] in Hnd, Hst |- *.
    apply NoDup_cons in Hnd as [Hnotin Hnd].
    cbn [for_each]. msimpl. rewrite (Hst pid) by left.
    set (v1 := if negb (UI.running (st pid)) && negb (UI.show_all v)
               then UI.set_tracked (delete pid)
                      (UI.set_tracked
                         (alter (λ e, {| UI.info := UI.info e;
                                         UI.stats := Some (st pid) |}) pid) v)
               else UI.set_tracked
                      (alter (λ e, {| UI.info := UI.info e;
                                      UI.stats := Some (st pid) |}) pid) v).
    assert (UI.state_file v1 = UI.state_file v ∧ UI.show_all v1 = UI.show_all v ∧
            ∀ pid', UI.tracked_processes v1 !! pid'
                    = if decide (pid' = pid)
                      then UI.tracked_processes v !! pid
                           ≫= λ e, shown_entry (UI.show_all v) (st pid) (UI.info e)
                      else UI.tracked_processes v !! pid') as (Hf1 & Hs1 & Ht1).
    { unfold v1, shown_entry.
      destruct (UI.running (st pid)), (UI.show_all v) eqn:Hshow; cbn;
        (split_and!; [done|done|]); intros pid'; case_decide as Hp; subst;
        rewrite ?lookup_delete_eq, ?lookup_delete_ne, ?lookup_alter_eq,
          ?lookup_alter_ne by done;
        try done; by destruct (UI.tracked_processes v !! pid). }
    destruct (IH v1 Hnd) as (v' & Hrun & Hf & Hs & Ht).
    { intros pid' Hin. apply Hst. by right. }
    exists v'. split_and!.
    + cbn [UI.set_tracked UI.show_all].
      destruct (negb (UI.running (st pid)) && negb (UI.show_all v)) eqn:Hdel;
        unfold v1 in Hrun; rewrite ?Hdel in Hrun; exact Hrun.
    + congruence.
    + congruence.
    + intros pid'. rewrite Ht, Ht1, Hs1.
      destruct (decide (pid' = pid)) as [->|Hne].
      * rewrite decide_False by done. by rewrite decide_True by left.
      * apply decide_ext. rewrite elem_of_cons. tauto.
Qed.

(** X15. A refresh of the viewer, when the state file is read and the
    stats of every loaded process can be read: the viewer then shows
    exactly the loaded entries whose process is running, each with its
    stats, and with [show_all] also those whose process is gone; nothing
    that was shown before and is not in the file remains. *)
Theorem update_process_list_spec (env : UI.ui_env) (v : UI.viewer)
    (T : gmap Z entry) (st : Z → UI.proc_stats) :
  UI.load_daemon_state (UI.ui_disk env) (UI.state_file v) = Ok T →
  (∀ pid, is_Some (T !! pid) → UI.get_process_stats env pid = Ok (st pid)) →
  ∃ v',
    UI.update_process_list env v = (Ok tt, v') ∧
    UI.state_file v' = UI.state_file v ∧
    UI.show_all v' = UI.show_all v ∧
    ∀ pid, UI.tracked_processes v' !! pid
           = T !! pid ≫= shown_entry (UI.show_all v) (st pid).
Proof.
  intros Hload Hst. unfold UI.update_process_list. msimpl. rewrite Hload.
  set (mk := λ e : entry, {| UI.info := e; UI.stats := None |}).
  set (v0 := UI.set_tracked (λ _, mk <$> T) v).
  destruct (refresh_loop env st (map_to_list (UI.tracked_processes v0)) v0)
    as (v' & Hrun & Hf & Hs & Ht).
  { apply NoDup_fst_map_to_list. }
  { intros pid Hin. apply Hst.
    apply list_elem_of_fmap in Hin as ([pid' e] & -> & Hin%elem_of_map_to_list).
    cbn in Hin. rewrite lookup_fmap in Hin. cbn.
    destruct (T !! pid'); [by eexists|done]. }
  exists v'. split_and!; [exact Hrun|done|done|].
  intros pid. rewrite Ht. cbn [v0 UI.set_tracked UI.tracked_processes UI.show_all].
  rewrite lookup_fmap. destruct (T !! pid) as [e|] eqn:HT; cbn; [|by case_decide].
  rewrite decide_True; [done|].
  apply list_elem_of_fmap. exists (pid, mk e). split; [done|].
  apply elem_of_map_to_list. by rewrite lookup_fmap, HT.
Qed.

Lemma update_process_list_spec_witness :
  let env := {| UI.ui_disk := disk (save_state fs_ok state_path sample_world).2;
                UI.proc_live := λ _, Raise NoSuchProcess;
                UI.ui_smi := λ _, Raise OSError |} in
  ∃ v', UI.update_process_list env sample_viewer = (Ok tt, v') ∧
        UI.tracked_processes v' !! 100 = None.
Proof.
  cbn zeta.
  destruct (update_process_list_spec
              {| UI.ui_disk := disk (save_state fs_ok state_path sample_world).2;
                 UI.proc_live := λ _, Raise NoSuchProcess;
                 UI.ui_smi := λ _, Raise OSError |}
              sample_viewer {[ 100 := train_entry ]}
              (λ _, {| UI.running := false; UI.status := "terminated";
                       UI.cpu_percent := None; UI.memory_percent := None;
                       UI.gpu_memory := None; UI.gpu_util := None |}))
    as (v' & Hrun & _ & _ & Ht).
  - vm_compute. reflexivity.
  - intros pid _. reflexivity.
  - exists v'. split; [exact Hrun|]. rewrite Ht. vm_compute. reflexivity.
Defined.

Lemma refresh_loop_raises env (l : list Z) : ∀ v pid e,
  pid ∈ l →
  UI.get_process_stats env pid = Raise e →
  ∃ e',
    (for_each l
       (λ pid,
          st ← lift (UI.get_process_stats env pid);
          modify (UI.set_tracked
                    (alter (λ e, {| UI.info := UI.info e; UI.stats := Some st |}) pid));;
          show ← gets UI.show_all;
          if negb (UI.running st) && negb show
          then modify (UI.set_tracked (delete pid))
          else mret tt) v).1 = Raise e'.
Proof.
  induction l as [|p l IH]; intros v pid e Hin Hraise; [by apply elem_of_nil in Hin|].
  cbn [for_each]. msimpl.
  destruct (UI.get_process_stats env p) as [st|e0] eqn:Hp; [|by eexists].
  apply elem_of_cons in Hin as [->|Hin]; [congruence|].
  destruct (negb (UI.running st) && negb _); cbn beta iota; by eapply IH.
Qed.

(** X16. One loaded process whose stats cannot be read (the query is
    denied, say) makes the whole refresh raise: [update_process_list] has
    no handler for it. *)
Theorem update_process_list_raises (env : UI.ui_env) (v : UI.viewer)
    (T : gmap Z entry) (pid : Z) (e : exn) :
  UI.load_daemon_state (UI.ui_disk env) (UI.state_file v) = Ok T →
  is_Some (T !! pid) →
  UI.proc_live env pid = Raise e →
  is_no_such_process e = false →
  ∃ e', (UI.update_process_list env v).1 = Raise e'.
Proof.
  intros Hload [en Hpid] Hlive Hno.
  assert (UI.get_process_stats env pid = Raise e) as Hstats.
  { pose proof (get_process_stats_cases_aux env pid) as H.
    by rewrite Hlive, Hno in H. }
  unfold UI.update_process_list. msimpl. rewrite Hload.
  cbn [UI.set_tracked UI.tracked_processes].
  eapply refresh_loop_raises; [|exact Hstats].
  apply list_elem_of_fmap. exists (pid, {| UI.info := en; UI.stats := None |}).
  split; [done|]. apply elem_of_map_to_list. by rewrite lookup_fmap, Hpid.
Qed.

Lemma update_process_list_raises_witness :
  ∃ e', (UI.update_process_list
           {| UI.ui_disk := disk (save_state fs_ok state_path sample_world).2;
              UI.proc_live := λ _, Raise AccessDenied;
              UI.ui_smi := λ _, Raise OSError |} sample_viewer).1 = Raise e'.
Proof.
  apply (update_process_list_raises _ sample_viewer {[ 100 := train_entry ]} 100
           AccessDenied).
  - vm_compute. reflexivity.
  - vm_compute. by eexists.
  - reflexivity.
  - reflexivity.
Defined.

(** ** The screen of the viewer *)

Example format_duration_days :
  Screen.format_duration (DateTime.mk 2024 3 1 12 0 0 0) (DateTime.mk 2024 2 28 10 30 0 0)
  = "2d 1h 30m".
Proof. reflexivity. Qed.

Example format_duration_seconds : Screen.format_duration t1 t0 = "5s".
Proof. reflexivity. Qed.

Example format_duration_future : Screen.format_duration t0 t1 = "23h 59m 54s".
Proof. reflexivity. Qed.

Example shown_command_cut :
  Screen.shown_command 55 "python train.py --epochs 90" = "python ...".
Proof. reflexivity. Qed.



Lemma draw_loop_all {A} (height : Z) (l : list A) : ∀ row,
  row + Z.of_nat (length l) <= height - 3 →
  Screen.draw_loop height row l = imap (λ i x, (row + Z.of_nat i, x)) l.
Proof.
  induction l as [|x l IH]; intros row Hfit; [done|].
  cbn [Screen.draw_loop imap length] in *.
  destruct (Z.leb_spec (height - 3) row) as [Hle|Hgt]; [lia|].
  rewrite IH by lia. f_equal; [f_equal; lia|].
  apply imap_ext. intros i y _. cbn. f_equal. lia.
Qed.

(** X18. The process rows of one screen: the first [height - 8] sorted
    processes are drawn, on the rows 5, 6, ... in order, and none when the
    terminal has fewer than nine lines; so every drawn row lies below the
    column headers and above the two footer lines. *)
Theorem drawn_rows_fit {A} (height : Z) (sorted_processes : list A) :
  Screen.drawn_rows height sorted_processes
  = imap (λ i x, (5 + Z.of_nat i, x)) (take (Z.to_nat (height - 8)) sorted_processes) ∧
  Forall (λ r, 5 <= r.1 < height - 3) (Screen.drawn_rows height sorted_processes).
Proof.
  assert (Screen.drawn_rows height sorted_processes
          = imap (λ i x, (5 + Z.of_nat i, x))
              (take (Z.to_nat (height - 8)) sorted_processes)) as Heq.
  { unfold Screen.drawn_rows, Screen.py_take.
    destruct (Z.ltb_spec (height - 8) 0) as [Hneg|Hpos].
    - replace (Z.to_nat (height - 8)) with 0%nat by lia. rewrite take_0.
      destruct (take _ sorted_processes) as [|x l]; [done|].
      cbn [Screen.draw_loop]. destruct (Z.leb_spec (height - 3) 5); [done|lia].
    - apply draw_loop_all. rewrite length_take. lia. }
  split; [exact Heq|]. rewrite Heq. apply Forall_forall. intros [r x] Hin.
  apply list_elem_of_lookup in Hin as [i Hi]. rewrite list_lookup_imap in Hi.
  destruct (take _ sorted_processes !! i) as [y|] eqn:Hy; [|done].
  injection Hi as <- <-. cbn.
  apply lookup_lt_Some in Hy. rewrite length_take in Hy. lia.
Qed.

Lemma string_length_append (a b : string) :
  String.length (a +:+ b) = (String.length a + String.length b)%nat.
Proof.
  induction a as [|c a IH]; [done|].
  change (String c a +:+ b) with (String c (a +:+ b)). cbn. by rewrite IH.
Qed.

Lemma string_length_substring (s : string) : ∀ n,
  String.length (String.substring 0 n s) = Nat.min n (String.length s).
Proof.
  induction s as [|c s IH]; intros [|n]; cbn; try done. by rewrite IH.
Qed.

(** X19. The command column on a terminal of at least 48 columns: a
    command line that fits in [width - 45] characters is shown as it is;
    a longer one is cut to its first [width - 48] characters followed by
    three dots, which makes [width - 45] characters exactly. *)
Theorem shown_command_fits (width : Z) (cmd : string) :
  48 <= width →
  Z.of_nat (String.length (Screen.shown_command width cmd)) <= width - 45 ∧
  (Z.of_nat (String.length cmd) <= width - 45 → Screen.shown_command width cmd = cmd) ∧
  (width - 45 < Z.of_nat (String.length cmd) →
     Screen.shown_command width cmd
     = String.substring 0 (Z.to_nat (width - 48)) cmd +:+ "..." ∧
     Z.of_nat (String.length (Screen.shown_command width cmd)) = width - 45).
Proof.
  intros Hw. unfold Screen.shown_command, Screen.py_prefix. cbn zeta.
  destruct (Z.ltb_spec (width - 45) (Z.of_nat (String.length cmd))) as [Hlong|Hfits].
  - destruct (Z.ltb_spec (width - 45 - 3) 0) as [?|_]; [lia|].
    replace (width - 45 - 3) with (width - 48) by lia.
    assert (Z.of_nat (String.length
                        (String.substring 0 (Z.to_nat (width - 48)) cmd +:+ "..."))
            = width - 45) as Hlen.
    { rewrite string_length_append, string_length_substring. cbn [String.length]. lia. }
    split_and!; [lia|lia|done].
  - split_and!; [lia|done|lia].
Qed.

Lemma shown_command_fits_witness :
  Z.of_nat (String.length (Screen.shown_command 55 "python train.py --epochs 90"))
  <= 55 - 45.
Proof. apply (shown_command_fits 55 "python train.py --epochs 90"). lia. Defined.

(** X20. The parts that [format_duration] shows: the hours are below 24,
    the minutes and the seconds below 60, none is negative, and with the
    days they add up to the whole seconds of the duration (rounded down),
    also for a negative duration. *)
Theorem duration_parts_sound (us : Z) :
  let '(days, hours, minutes, seconds) := Screen.duration_parts us in
  0 <= hours < 24 ∧ 0 <= minutes < 60 ∧ 0 <= seconds < 60 ∧
  ((days * 24 + hours) * 60 + minutes) * 60 + seconds = us / 1000000.
Proof.
  unfold Screen.duration_parts, Screen.day_us. cbn zeta.
  Z.div_mod_to_equations. lia.
Qed.

(** X21. A duration of less than a day, negative ones included, is shown
    without days, and what is shown depends only on the duration modulo
    one day: a start time five seconds in the future (after a clock
    change) reads like a start 23 hours, 59 minutes and 55 seconds ago. *)
Theorem format_duration_wraps (now start_time now' start_time' : datetime) :
  DateTime.sub now start_time < Screen.day_us →
  DateTime.sub now' start_time' < Screen.day_us →
  DateTime.sub now start_time mod Screen.day_us
  = DateTime.sub now' start_time' mod Screen.day_us →
  Screen.format_duration now start_time = Screen.format_duration now' start_time'.
Proof.
  unfold Screen.format_duration. generalize (DateTime.sub now start_time) as a.
  generalize (DateTime.sub now' start_time') as b. intros b a Ha Hb Hmod.
  unfold Screen.duration_parts. cbn zeta. rewrite Hmod. unfold Screen.format_parts.
  assert (a / Screen.day_us <= 0 ∧ b / Screen.day_us <= 0) as [Hda Hdb].
  { unfold Screen.day_us in *. Z.div_mod_to_equations. lia. }
  destruct (Z.ltb_spec 0 (a / Screen.day_us)); [lia|].
  destruct (Z.ltb_spec 0 (b / Screen.day_us)); [lia|]. done.
Qed.

Lemma format_duration_wraps_witness :
  Screen.format_duration (DateTime.mk 2024 1 15 10 30 0 0) (DateTime.mk 2024 1 15 10 30 5 0)
  = Screen.format_duration (DateTime.mk 2024 1 15 10 30 0 0) (DateTime.mk 2024 1 14 10 30 5 0).
Proof. apply format_duration_wraps; vm_compute; reflexivity. Defined.

